(** * The real-time channel session of the dashboard (WebSocketContext)

    A shallow embedding of [WebSocketProvider]: the React state
    ([status], [subscriptions]), the refs ([socketRef],
    [reconnectAttemptsRef], [heartbeatTimerRef], [reconnectTimerRef],
    [isManualDisconnect]), the browser objects the provider talks to
    (sockets with their [readyState] and handlers, pending timers) and
    the observable effects (frames handed to [socket.send], callback
    invocations, console lines).

    Every function below is written after the source function of the
    same name.  State is threaded explicitly; a handler that the source
    installs on one particular socket takes that socket's number and the
    values its closure captured. *)

From stdpp Require Import base numbers strings option list gmap.

Open Scope string_scope.
Open Scope list_scope.

(** ** Data model *)

(** [WebSocketStatus]: the five values of the status string. *)
Inductive WebSocketStatus :=
  | connecting | connected | disconnecting | disconnected | error.

(** [WebSocketChannel]: the closed set of topics. *)
Inductive WebSocketChannel :=
  | transactions | prices | security | user_activity | system | notifications.

#[global] Instance WebSocketStatus_eq_dec : EqDecision WebSocketStatus.
Proof. solve_decision. Defined.

#[global] Instance WebSocketChannel_eq_dec : EqDecision WebSocketChannel.
Proof. solve_decision. Defined.

(** The string a channel is at run time. *)
Definition channel_name (c : WebSocketChannel) : string :=
  match c with
  | transactions => "transactions"
  | prices => "prices"
  | security => "security"
  | user_activity => "user_activity"
  | system => "system"
  | notifications => "notifications"
  end.

(** JavaScript values as far as the provider looks at them: what
    [JSON.parse] can return, plus [undefined] for an absent property.
    Numbers are kept as integers; only their truthiness is observed. *)
#[local] Unset Elimination Schemes.
Inductive JsValue :=
  | JUndefined
  | JNull
  | JBool (b : bool)
  | JNum (n : Z)
  | JStr (s : string)
  | JArr (items : list JsValue)
  | JObj (fields : list (string * JsValue)).
#[local] Set Elimination Schemes.

(** Own property of a parsed object, by key. *)
Fixpoint own_property (fields : list (string * JsValue)) (key : string) : JsValue :=
  match fields with
  | [] => JUndefined
  | (k, v) :: rest => if decide (k = key) then v else own_property rest key
  end.

(** [v.key] for the keys the provider reads ([type], [channel], [data]).
    Reading a property of [null] or [undefined] throws a TypeError,
    which is [None] here; primitives and arrays have no such property. *)
Definition get_prop (v : JsValue) (key : string) : option JsValue :=
  match v with
  | JUndefined | JNull => None
  | JObj fields => Some (own_property fields key)
  | _ => Some JUndefined
  end.

(** JavaScript truthiness, as in [if (message.channel)]. *)
Definition truthy (v : JsValue) : bool :=
  match v with
  | JUndefined | JNull => false
  | JBool b => b
  | JNum n => negb (n =? 0)%Z
  | JStr s => negb (bool_decide (s = ""))
  | JArr _ | JObj _ => true
  end.

(** [v === str] for a string literal [str]. *)
Definition strict_eq_str (v : JsValue) (str : string) : bool :=
  match v with
  | JStr s => bool_decide (s = str)
  | _ => false
  end.

(** A callback is known by its identity only ([s.callback === callback]). *)
Definition Callback := nat.

Record Subscription := { channel : WebSocketChannel; callback : Callback }.

#[global] Instance Subscription_eq_dec : EqDecision Subscription.
Proof. solve_decision. Defined.

(** One invocation of a subscriber callback with its argument. *)
Definition Call : Type := Callback * JsValue.

Inductive ConsoleLine :=
  | console_log (text : string)
  | console_warn (text : string)
  | console_error (text : string).

(** [WebSocket.readyState]. *)
Inductive ReadyState := CONNECTING | OPEN | CLOSING | CLOSED.

#[global] Instance ReadyState_eq_dec : EqDecision ReadyState.
Proof. solve_decision. Defined.

(** A socket made by [new WebSocket(url)] inside one call of [connect].
    Its four handlers are closures of that call: [closure_subscriptions]
    is the value of the constant [subscriptions] they captured, which is
    the one of the render that made this [connect].  [sent] collects the
    values passed through [JSON.stringify] to [socket.send]. *)
Record Socket := {
  readyState : ReadyState;
  closure_subscriptions : list Subscription;
  sent : list JsValue
}.

(** What a pending timer runs when it fires. *)
Inductive TimerTask :=
  | heartbeat_tick (socket : nat)
      (* the [setInterval] callback of [onopen], closed over its socket *)
  | retry_connect (captured : list Subscription)
      (* the [setTimeout] callback of [onclose]: [connect()] *)
  | reconnect_connect (captured : list Subscription).
      (* the [setTimeout] callback of [reconnect]: reset the counter, [connect()] *)

Record Timer := { task : TimerTask; delay : Z; repeats : bool }.

(** The props of [WebSocketProvider].  [url_valid] says whether
    [new WebSocket(url)] returns (it throws on a URL it cannot use). *)
Record Props := {
  url_valid : bool;
  autoConnect : bool;
  reconnectInterval : Z;
  maxReconnectAttempts : Z;
  heartbeatInterval : Z
}.

Definition default_props : Props :=
  {| url_valid := true; autoConnect := true; reconnectInterval := 3000;
     maxReconnectAttempts := 5; heartbeatInterval := 30000 |}.

(** The provider together with the browser state it acts on. *)
Record State := {
  (* useState *)
  status : WebSocketStatus;
  subscriptions : list Subscription;
  (* useRef *)
  socketRef : option nat;
  reconnectAttemptsRef : Z;
  heartbeatTimerRef : option nat;
  reconnectTimerRef : option nat;
  isManualDisconnect : bool;
  (* browser *)
  sockets : gmap nat Socket;
  next_socket : nat;
  timers : gmap nat Timer;
  next_timer : nat;
  (* observations *)
  calls : list Call;
  console : list ConsoleLine
}.

(** The state at the first render: nothing connected, no timer; timer
    handles start at 1, so that a stored handle is truthy. *)
Definition initial : State :=
  {| status := disconnected; subscriptions := [];
     socketRef := None; reconnectAttemptsRef := 0;
     heartbeatTimerRef := None; reconnectTimerRef := None;
     isManualDisconnect := false;
     sockets := ∅; next_socket := 0; timers := ∅; next_timer := 1;
     calls := []; console := [] |}.

(** *** Field updates *)

Definition setStatus (v : WebSocketStatus) (s : State) : State :=
  {| status := v; subscriptions := subscriptions s; socketRef := socketRef s;
     reconnectAttemptsRef := reconnectAttemptsRef s;
     heartbeatTimerRef := heartbeatTimerRef s;
     reconnectTimerRef := reconnectTimerRef s;
     isManualDisconnect := isManualDisconnect s; sockets := sockets s;
     next_socket := next_socket s; timers := timers s;
     next_timer := next_timer s; calls := calls s; console := console s |}.

Definition setSubscriptions (f : list Subscription → list Subscription)
    (s : State) : State :=
  {| status := status s; subscriptions := f (subscriptions s);
     socketRef := socketRef s;
     reconnectAttemptsRef := reconnectAttemptsRef s;
     heartbeatTimerRef := heartbeatTimerRef s;
     reconnectTimerRef := reconnectTimerRef s;
     isManualDisconnect := isManualDisconnect s; sockets := sockets s;
     next_socket := next_socket s; timers := timers s;
     next_timer := next_timer s; calls := calls s; console := console s |}.

Definition set_socketRef (v : option nat) (s : State) : State :=
  {| status := status s; subscriptions := subscriptions s; socketRef := v;
     reconnectAttemptsRef := reconnectAttemptsRef s;
     heartbeatTimerRef := heartbeatTimerRef s;
     reconnectTimerRef := reconnectTimerRef s;
     isManualDisconnect := isManualDisconnect s; sockets := sockets s;
     next_socket := next_socket s; timers := timers s;
     next_timer := next_timer s; calls := calls s; console := console s |}.

Definition set_reconnectAttemptsRef (v : Z) (s : State) : State :=
  {| status := status s; subscriptions := subscriptions s;
     socketRef := socketRef s; reconnectAttemptsRef := v;
     heartbeatTimerRef := heartbeatTimerRef s;
     reconnectTimerRef := reconnectTimerRef s;
     isManualDisconnect := isManualDisconnect s; sockets := sockets s;
     next_socket := next_socket s; timers := timers s;
     next_timer := next_timer s; calls := calls s; console := console s |}.

Definition set_heartbeatTimerRef (v : option nat) (s : State) : State :=
  {| status := status s; subscriptions := subscriptions s;
     socketRef := socketRef s;
     reconnectAttemptsRef := reconnectAttemptsRef s;
     heartbeatTimerRef := v; reconnectTimerRef := reconnectTimerRef s;
     isManualDisconnect := isManualDisconnect s; sockets := sockets s;
     next_socket := next_socket s; timers := timers s;
     next_timer := next_timer s; calls := calls s; console := console s |}.

Definition set_reconnectTimerRef (v : option nat) (s : State) : State :=
  {| status := status s; subscriptions := subscriptions s;
     socketRef := socketRef s;
     reconnectAttemptsRef := reconnectAttemptsRef s;
     heartbeatTimerRef := heartbeatTimerRef s; reconnectTimerRef := v;
     isManualDisconnect := isManualDisconnect s; sockets := sockets s;
     next_socket := next_socket s; timers := timers s;
     next_timer := next_timer s; calls := calls s; console := console s |}.

Definition set_isManualDisconnect (v : bool) (s : State) : State :=
  {| status := status s; subscriptions := subscriptions s;
     socketRef := socketRef s;
     reconnectAttemptsRef := reconnectAttemptsRef s;
     heartbeatTimerRef := heartbeatTimerRef s;
     reconnectTimerRef := reconnectTimerRef s;
     isManualDisconnect := v; sockets := sockets s;
     next_socket := next_socket s; timers := timers s;
     next_timer := next_timer s; calls := calls s; console := console s |}.

Definition set_sockets (v : gmap nat Socket) (n : nat) (s : State) : State :=
  {| status := status s; subscriptions := subscriptions s;
     socketRef := socketRef s;
     reconnectAttemptsRef := reconnectAttemptsRef s;
     heartbeatTimerRef := heartbeatTimerRef s;
     reconnectTimerRef := reconnectTimerRef s;
     isManualDisconnect := isManualDisconnect s; sockets := v;
     next_socket := n; timers := timers s;
     next_timer := next_timer s; calls := calls s; console := console s |}.

Definition set_timers (v : gmap nat Timer) (n : nat) (s : State) : State :=
  {| status := status s; subscriptions := subscriptions s;
     socketRef := socketRef s;
     reconnectAttemptsRef := reconnectAttemptsRef s;
     heartbeatTimerRef := heartbeatTimerRef s;
     reconnectTimerRef := reconnectTimerRef s;
     isManualDisconnect := isManualDisconnect s; sockets := sockets s;
     next_socket := next_socket s; timers := v;
     next_timer := n; calls := calls s; console := console s |}.

Definition set_calls (v : list Call) (s : State) : State :=
  {| status := status s; subscriptions := subscriptions s;
     socketRef := socketRef s;
     reconnectAttemptsRef := reconnectAttemptsRef s;
     heartbeatTimerRef := heartbeatTimerRef s;
     reconnectTimerRef := reconnectTimerRef s;
     isManualDisconnect := isManualDisconnect s; sockets := sockets s;
     next_socket := next_socket s; timers := timers s;
     next_timer := next_timer s; calls := v; console := console s |}.

Definition print (line : ConsoleLine) (s : State) : State :=
  {| status := status s; subscriptions := subscriptions s;
     socketRef := socketRef s;
     reconnectAttemptsRef := reconnectAttemptsRef s;
     heartbeatTimerRef := heartbeatTimerRef s;
     reconnectTimerRef := reconnectTimerRef s;
     isManualDisconnect := isManualDisconnect s; sockets := sockets s;
     next_socket := next_socket s; timers := timers s;
     next_timer := next_timer s; calls := calls s;
     console := console s ++ [line] |}.

(** ** Operations *)

(** The outbound control frames, as the object literals of the source. *)
Definition ping_frame : JsValue := JObj [("type", JStr "ping")].

Definition subscribe_frame (c : WebSocketChannel) : JsValue :=
  JObj [("type", JStr "subscribe"); ("channel", JStr (channel_name c))].

Definition unsubscribe_frame (c : WebSocketChannel) : JsValue :=
  JObj [("type", JStr "unsubscribe"); ("channel", JStr (channel_name c))].

(** How a statement ends: normally, or by an exception. *)
Inductive Completion := normal | thrown.

(** *** Timers and sockets of the browser *)

Definition setTimeout (t : TimerTask) (ms : Z) (s : State) : nat * State :=
  let h := next_timer s in
  (h, set_timers (<[h := {| task := t; delay := ms; repeats := false |}]> (timers s))
        (S h) s).

Definition setInterval (t : TimerTask) (ms : Z) (s : State) : nat * State :=
  let h := next_timer s in
  (h, set_timers (<[h := {| task := t; delay := ms; repeats := true |}]> (timers s))
        (S h) s).

(** [clearTimeout] and [clearInterval] cancel the timer of a handle,
    and do nothing when it is not pending. *)
Definition clearTimeout (h : nat) (s : State) : State :=
  set_timers (delete h (timers s)) (next_timer s) s.

Definition clearInterval (h : nat) (s : State) : State :=
  set_timers (delete h (timers s)) (next_timer s) s.

(** [new WebSocket(url)] inside a [connect] whose closure holds
    [captured]: a fresh socket in state CONNECTING. *)
Definition new_WebSocket (captured : list Subscription) (s : State) : nat * State :=
  let i := next_socket s in
  (i, set_sockets
        (<[i := {| readyState := CONNECTING;
                   closure_subscriptions := captured; sent := [] |}]> (sockets s))
        (S i) s).

Definition with_readyState (r : ReadyState) (k : Socket) : Socket :=
  {| readyState := r; closure_subscriptions := closure_subscriptions k;
     sent := sent k |}.

Definition with_sent (v : JsValue) (k : Socket) : Socket :=
  {| readyState := readyState k;
     closure_subscriptions := closure_subscriptions k;
     sent := sent k ++ [v] |}.

(** [socket.readyState === WebSocket.OPEN] *)
Definition socket_is_open (i : nat) (s : State) : bool :=
  match sockets s !! i with
  | Some k => bool_decide (readyState k = OPEN)
  | None => false
  end.

(** [socketRef.current?.readyState === WebSocket.OPEN] *)
Definition current_is_open (s : State) : bool :=
  match socketRef s with
  | Some i => socket_is_open i s
  | None => false
  end.

(** [socket.send(JSON.stringify(v))].  Every call of the source is made
    on an open socket (behind a [readyState] test, or inside [onopen]);
    on a socket that is not open nothing reaches the wire. *)
Definition socket_send (i : nat) (v : JsValue) (s : State) : State :=
  match sockets s !! i with
  | Some k =>
      if bool_decide (readyState k = OPEN)
      then set_sockets (<[i := with_sent v k]> (sockets s)) (next_socket s) s
      else s
  | None => s
  end.

(** [socket.close()]: starts the closing handshake of a socket that is
    connecting or open; the close event comes later. *)
Definition socket_close (i : nat) (s : State) : State :=
  match sockets s !! i with
  | Some k =>
      match readyState k with
      | CONNECTING | OPEN =>
          set_sockets (<[i := with_readyState CLOSING k]> (sockets s)) (next_socket s) s
      | _ => s
      end
  | None => s
  end.

(** A timer whose callback calls [connect]. *)
Definition calls_connect (tm : Timer) : bool :=
  match task tm with
  | heartbeat_tick _ => false
  | retry_connect _ | reconnect_connect _ => true
  end.

(** The pending timers that will call [connect] when they fire. *)
Definition pending_connects (s : State) : gmap nat Timer :=
  filter (λ entry, calls_connect entry.2) (timers s).

Section Provider.

Variable props : Props.

(** Whether a subscriber callback throws on an argument.  Callbacks
    are opaque: all that is observed of one is that it was called,
    with what, and whether it returned. *)
Variable throws : Callback → JsValue → bool.

(** [subs.forEach(sub => sub.callback(arg))]: the callbacks are called
    in order; the first exception ends the loop and goes up. *)
Fixpoint forEach_callback (subs : list Subscription) (arg : JsValue)
    (s : State) : State * Completion :=
  match subs with
  | [] => (s, normal)
  | sub :: rest =>
      let s := set_calls (calls s ++ [(callback sub, arg)]) s in
      if throws (callback sub) arg then (s, thrown)
      else forEach_callback rest arg s
  end.

(** Lines 107-112: route the message to the subscribers of its channel. *)
Definition route_channel (captured : list Subscription) (message : JsValue)
    (s : State) : State * Completion :=
  match get_prop message "channel" with
  | None => (s, thrown)
  | Some ch =>
      if truthy ch then
        match get_prop message "data" with
        | None => (s, thrown)
        | Some data =>
            forEach_callback
              (filter (λ sub, strict_eq_str ch (channel_name (channel sub))) captured)
              data s
        end
      else (s, normal)
  end.

(** Lines 114-117: the global message handler. *)
Definition route_system (captured : list Subscription) (message : JsValue)
    (s : State) : State * Completion :=
  forEach_callback (filter (λ sub, channel sub = system) captured) message s.

(** The [try] block of [socket.onmessage] (lines 99-118).  [parsed] is
    the result of [JSON.parse(event.data)], [None] when it throws. *)
Definition onmessage_try (captured : list Subscription) (parsed : option JsValue)
    (s : State) : State * Completion :=
  match parsed with
  | None => (s, thrown)
  | Some message =>
      match get_prop message "type" with
      | None => (s, thrown)
      | Some ty =>
          if strict_eq_str ty "pong" then (s, normal)
          else
            match route_channel captured message s with
            | (s, thrown) => (s, thrown)
            | (s, normal) => route_system captured message s
            end
      end
  end.

(** [socket.onmessage] (lines 98-122): the [catch] logs whatever the
    [try] block threw, so the handler itself always returns. *)
Definition onmessage (captured : list Subscription) (parsed : option JsValue)
    (s : State) : State :=
  match onmessage_try captured parsed s with
  | (s, normal) => s
  | (s, thrown) => print (console_error "Failed to parse WebSocket message:") s
  end.

(** [connect] (lines 63-156) of the render whose [subscriptions] is
    [captured].  The handlers it installs are [onopen], [onmessage],
    [onerror] and [onclose] below, with the same [captured]. *)
Definition connect (captured : list Subscription) (s : State) : State :=
  if current_is_open s then s
  else
    let s := setStatus connecting s in
    let s := set_isManualDisconnect false s in
    if url_valid props then
      let '(socket, s) := new_WebSocket captured s in
      set_socketRef (Some socket) s
    else
      let s := print (console_error "Failed to create WebSocket:") s in
      setStatus error s.

(** [socket.onopen] (lines 75-96) of socket [socket]. *)
Definition onopen (socket : nat) (captured : list Subscription) (s : State) : State :=
  let s := print (console_log "WebSocket connected") s in
  let s := setStatus connected s in
  let s := set_reconnectAttemptsRef 0 s in
  let s :=
    if (0 <? heartbeatInterval props)%Z then
      let '(h, s) := setInterval (heartbeat_tick socket) (heartbeatInterval props) s in
      set_heartbeatTimerRef (Some h) s
    else s in
  foldl (λ s sub, socket_send socket (subscribe_frame (channel sub)) s) s captured.

(** The heartbeat callback (lines 82-86). *)
Definition heartbeat (socket : nat) (s : State) : State :=
  if socket_is_open socket s then socket_send socket ping_frame s else s.

(** [socket.onerror] (lines 124-127). *)
Definition onerror (s : State) : State :=
  let s := print (console_error "WebSocket error:") s in
  setStatus error s.

(** [socket.onclose] (lines 129-150). *)
Definition onclose (captured : list Subscription) (s : State) : State :=
  let s := print (console_log "WebSocket disconnected") s in
  let s := setStatus disconnected s in
  let s :=
    match heartbeatTimerRef s with
    | Some h => clearInterval h s
    | None => s
    end in
  if negb (isManualDisconnect s)
     && (reconnectAttemptsRef s <? maxReconnectAttempts props)%Z
  then
    let s := set_reconnectAttemptsRef (reconnectAttemptsRef s + 1) s in
    let s := print (console_log "Reconnecting...") s in
    let '(h, s) := setTimeout (retry_connect captured) (reconnectInterval props) s in
    set_reconnectTimerRef (Some h) s
  else s.

(** [disconnect] (lines 158-176). *)
Definition disconnect (s : State) : State :=
  let s := set_isManualDisconnect true s in
  let s := setStatus disconnecting s in
  let s :=
    match heartbeatTimerRef s with
    | Some h => clearInterval h s
    | None => s
    end in
  let s :=
    match reconnectTimerRef s with
    | Some h => clearTimeout h s
    | None => s
    end in
  let s :=
    match socketRef s with
    | Some socket => set_socketRef None (socket_close socket s)
    | None => s
    end in
  setStatus disconnected s.

(** [reconnect] (lines 178-184) of a render whose [connect] holds
    [captured]. *)
Definition reconnect (captured : list Subscription) (s : State) : State :=
  let s := disconnect s in
  snd (setTimeout (reconnect_connect captured) 100 s).

(** [send] (lines 186-192). *)
Definition send (message : JsValue) (s : State) : State :=
  if current_is_open s then
    match socketRef s with
    | Some socket => socket_send socket message s
    | None => s
    end
  else print (console_warn "WebSocket is not connected. Message not sent:") s.

(** [s.channel === channel && s.callback === callback] *)
Definition same_subscription (c : WebSocketChannel) (cb : Callback)
    (x : Subscription) : Prop :=
  channel x = c ∧ callback x = cb.

#[global] Instance same_subscription_dec c cb x : Decision (same_subscription c cb x).
Proof. unfold same_subscription. apply _. Defined.

(** [subscribe] (lines 194-217): the new state and the function it
    returns. *)
Definition subscribe (c : WebSocketChannel) (cb : Callback) (s : State)
    : State * (State → State) :=
  let subscription := {| channel := c; callback := cb |} in
  let s :=
    setSubscriptions
      (λ prev,
         let exists_ := bool_decide (Exists (same_subscription c cb) prev) in
         if exists_ then prev else prev ++ [subscription]) s in
  let s := if current_is_open s then send (subscribe_frame c) s else s in
  (s, λ s,
        let s :=
          setSubscriptions
            (λ prev, filter (λ x, ¬ same_subscription c cb x) prev) s in
        if current_is_open s then send (unsubscribe_frame c) s else s).

(** [unsubscribe] (lines 219-225). *)
Definition unsubscribe (c : WebSocketChannel) (cb : Callback) (s : State) : State :=
  let s :=
    setSubscriptions
      (λ prev, filter (λ x, ¬ same_subscription c cb x) prev) s in
  if current_is_open s then send (unsubscribe_frame c) s else s.

(** The timer callback behind a handle. *)
Definition run_task (t : TimerTask) (s : State) : State :=
  match t with
  | heartbeat_tick socket => heartbeat socket s
  | retry_connect captured => connect captured s
  | reconnect_connect captured => connect captured (set_reconnectAttemptsRef 0 s)
  end.

(** *** Events of the browser *)

(** A pending timer fires; a timeout is then no longer pending. *)
Definition timer_fires (h : nat) (s : State) : State :=
  match timers s !! h with
  | Some tm =>
      let s := if repeats tm then s
               else set_timers (delete h (timers s)) (next_timer s) s in
      run_task (task tm) s
  | None => s
  end.

Definition set_readyState (i : nat) (r : ReadyState) (k : Socket) (s : State) : State :=
  set_sockets (<[i := with_readyState r k]> (sockets s)) (next_socket s) s.

(** The open event of a connecting socket. *)
Definition socket_opens (i : nat) (s : State) : State :=
  match sockets s !! i with
  | Some k =>
      match readyState k with
      | CONNECTING => onopen i (closure_subscriptions k) (set_readyState i OPEN k s)
      | _ => s
      end
  | None => s
  end.

(** A message event; only an open socket delivers messages. *)
Definition socket_message (i : nat) (parsed : option JsValue) (s : State) : State :=
  match sockets s !! i with
  | Some k =>
      match readyState k with
      | OPEN => onmessage (closure_subscriptions k) parsed s
      | _ => s
      end
  | None => s
  end.

(** An error event of a socket that is not closed yet. *)
Definition socket_errors (i : nat) (s : State) : State :=
  match sockets s !! i with
  | Some k =>
      match readyState k with
      | CLOSED => s
      | _ => onerror s
      end
  | None => s
  end.

(** The close event of a socket that is not closed yet. *)
Definition socket_closes (i : nat) (s : State) : State :=
  match sockets s !! i with
  | Some k =>
      match readyState k with
      | CLOSED => s
      | _ => onclose (closure_subscriptions k) (set_readyState i CLOSED k s)
      end
  | None => s
  end.

(** What can happen to a mounted provider.  A call through the context
    value uses the functions of the latest render, whose
    [subscriptions] is the current one; the mount effect (lines
    228-236, dependency list []) uses the [connect] of the first
    render, whose [subscriptions] is the initial []. *)
Inductive Event :=
  | mount
  | unmount
  | call_connect
  | call_disconnect
  | call_reconnect
  | call_send (message : JsValue)
  | call_subscribe (c : WebSocketChannel) (cb : Callback)
  | call_unsubscribe (c : WebSocketChannel) (cb : Callback)
  | call_returned_unsubscribe (c : WebSocketChannel) (cb : Callback)
  | open_event (socket : nat)
  | message_event (socket : nat) (parsed : option JsValue)
  | error_event (socket : nat)
  | close_event (socket : nat)
  | timer_event (handle : nat).

Definition step (s : State) (e : Event) : State :=
  match e with
  | mount => if autoConnect props then connect [] s else s
  | unmount => disconnect s
  | call_connect => connect (subscriptions s) s
  | call_disconnect => disconnect s
  | call_reconnect => reconnect (subscriptions s) s
  | call_send message => send message s
  | call_subscribe c cb => fst (subscribe c cb s)
  | call_unsubscribe c cb => unsubscribe c cb s
  | call_returned_unsubscribe c cb => snd (subscribe c cb s) s
  | open_event i => socket_opens i s
  | message_event i parsed => socket_message i parsed s
  | error_event i => socket_errors i s
  | close_event i => socket_closes i s
  | timer_event h => timer_fires h s
  end.

Definition run (events : list Event) (s : State) : State :=
  foldl step s events.

(** The events that come from the browser rather than from a caller. *)
Definition from_browser (e : Event) : bool :=
  match e with
  | open_event _ | message_event _ _ | error_event _ | close_event _
  | timer_event _ => true
  | _ => false
  end.


(** *** What a message handler calls, said directly *)

(** The calls a [forEach] makes: those up to and including the first
    one that throws. *)
Fixpoint until_throw (l : list Call) : list Call :=
  match l with
  | [] => []
  | c :: rest => c :: (if throws c.1 c.2 then [] else until_throw rest)
  end.

Definition some_throw (l : list Call) : bool :=
  existsb (λ c, throws c.1 c.2) l.

(** The subscriptions of [captured] a message is for, by channel. *)
Definition channel_targets (captured : list Subscription) (ch : JsValue)
    : list Subscription :=
  filter (λ sub, strict_eq_str ch (channel_name (channel sub))) captured.

(** The subscriptions of the reserved [system] topic. *)
Definition system_targets (captured : list Subscription) : list Subscription :=
  filter (λ sub, channel sub = system) captured.

Definition with_arg (arg : JsValue) (subs : list Subscription) : list Call :=
  map (λ sub, (callback sub, arg)) subs.

(** All the calls a non-pong message asks for, in order: the channel
    routing with [message.data], then the global handler with the
    whole message. *)
Definition targets (captured : list Subscription) (message : JsValue) : list Call :=
  match get_prop message "channel", get_prop message "data" with
  | Some ch, Some data =>
      (if truthy ch then with_arg data (channel_targets captured ch) else [])
      ++ with_arg message (system_targets captured)
  | _, _ => []
  end.

(** The calls of one message event, whatever the payload. *)
Definition dispatched (captured : list Subscription) (parsed : option JsValue)
    : list Call :=
  match parsed ≫= (λ message, get_prop message "type" ≫= (λ ty, Some (message, ty))) with
  | Some (message, ty) =>
      if strict_eq_str ty "pong" then []
      else until_throw (targets captured message)
  | None => []
  end.

(** Frames arriving one after the other on socket [i]. *)
Definition deliver (i : nat) (frames : list (option JsValue)) (s : State) : State :=
  foldl (λ s parsed, socket_message i parsed s) s frames.

(** The calls a socket's handler makes for a frame, if it is open. *)
Definition emitted (i : nat) (s : State) (parsed : option JsValue) : list Call :=
  match sockets s !! i with
  | Some k =>
      match readyState k with
      | OPEN => dispatched (closure_subscriptions k) parsed
      | _ => []
      end
  | None => []
  end.

(** *** A run of failed connections *)

(** The retry whose handle [reconnectTimerRef] holds fires, if it is
    still pending. *)
Definition retry_fires (s : State) : State :=
  match reconnectTimerRef s with
  | Some h =>
      if decide (is_Some (pending_connects s !! h)) then timer_fires h s else s
  | None => s
  end.

(** The transport [socketRef] holds closes, if it is not closed yet. *)
Definition transport_closes (s : State) : State :=
  match socketRef s with
  | Some i => socket_closes i s
  | None => s
  end.

(** The next close of a run with no successful connection in between:
    the pending retry, if there is one, fires and makes a transport,
    and the transport of the session closes (without having opened, if
    it is the one the retry made). *)
Definition next_close (s : State) : State :=
  transport_closes (retry_fires s).

Definition consecutive_closes (n : nat) (s : State) : State :=
  Nat.iter n next_close s.

(** The retry that [onclose] of a [connect] holding [captured] schedules. *)
Definition retry_timer (captured : list Subscription) : Timer :=
  {| task := retry_connect captured; delay := reconnectInterval props;
     repeats := false |}.

(** The session holds a transport made by a [connect] holding
    [captured], in state [r]. *)
Definition transport_in (captured : list Subscription) (r : ReadyState → Prop)
    (s : State) : Prop :=
  ∃ i k, socketRef s = Some i ∧ sockets s !! i = Some k
         ∧ r (readyState k) ∧ closure_subscriptions k = captured.

(** Where a run of non-manual closes starts: a transport that is not
    closed, the counter at [a], no [connect] pending. *)
Definition episode_start (captured : list Subscription) (a : Z) (s : State) : Prop :=
  isManualDisconnect s = false
  ∧ reconnectAttemptsRef s = a
  ∧ transport_in captured (λ r, r ≠ CLOSED) s
  ∧ pending_connects s = ∅.

(** After a close that scheduled a retry. *)
Definition retry_scheduled (captured : list Subscription) (a : Z) (s : State) : Prop :=
  status s = disconnected
  ∧ isManualDisconnect s = false
  ∧ reconnectAttemptsRef s = a
  ∧ transport_in captured (λ r, r = CLOSED) s
  ∧ ∃ h, reconnectTimerRef s = Some h
         ∧ pending_connects s = {[ h := retry_timer captured ]}.

(** After a close that scheduled nothing. *)
Definition retries_over (captured : list Subscription) (a : Z) (s : State) : Prop :=
  status s = disconnected
  ∧ isManualDisconnect s = false
  ∧ reconnectAttemptsRef s = a
  ∧ transport_in captured (λ r, r = CLOSED) s
  ∧ pending_connects s = ∅.

(** A payload the handler cannot decode: [JSON.parse] throws on it, or
    it is the JSON value [null], whose [type] cannot be read. *)
Definition undecodable (parsed : option JsValue) : Prop :=
  parsed = None ∨ parsed = Some JNull.

End Provider.

(** *** States around [disconnect] *)

(** Every pending timer is one of the two the refs hold, and every
    socket that is connecting or open is the one [socketRef] holds. *)
Definition single_transport (s : State) : Prop :=
  (∀ h, is_Some (timers s !! h) →
        heartbeatTimerRef s = Some h ∨ reconnectTimerRef s = Some h)
  ∧ (∀ i k, sockets s !! i = Some k →
        socketRef s = Some i ∨ readyState k = CLOSING ∨ readyState k = CLOSED).

(** Nothing left that could send a frame or connect: the closure is
    marked manual, no timer is pending, no socket is connecting or
    open. *)
Definition silent (s : State) : Prop :=
  isManualDisconnect s = true
  ∧ timers s = ∅
  ∧ ∀ i k, sockets s !! i = Some k →
           readyState k = CLOSING ∨ readyState k = CLOSED.

(** *** Callbacks and frames of the examples *)

(** Callbacks that always return. *)
Definition never_throws : Callback → JsValue → bool := λ _ _, false.

(** Callback [bad] throws on every argument, the others return. *)
Definition only_throws (bad : Callback) : Callback → JsValue → bool :=
  λ cb _, bool_decide (cb = bad).

(** An application frame [{type, channel, data}]. *)
Definition frame (ty ch : string) (data : JsValue) : JsValue :=
  JObj [("type", JStr ty); ("channel", JStr ch); ("data", data)].

(** The configuration of the scenario of the specification: two
    attempts, 100 ms apart. *)
Definition scenario_props : Props :=
  {| url_valid := true; autoConnect := true; reconnectInterval := 100;
     maxReconnectAttempts := 2; heartbeatInterval := 30000 |}.

(** *** Counting calls *)

(** How often callback [cb] occurs in a list of calls. *)
Definition invocations (cb : Callback) (l : list Call) : nat :=
  length (filter (λ call, call.1 = cb) l).

(** The calls made between two states of one run. *)
Definition new_calls (before after : State) : list Call :=
  drop (length (calls before)) (calls after).

(** *** The state without its observations *)

(** A state with the console left out. *)
Definition without_console (s : State) : State :=
  {| status := status s; subscriptions := subscriptions s;
     socketRef := socketRef s;
     reconnectAttemptsRef := reconnectAttemptsRef s;
     heartbeatTimerRef := heartbeatTimerRef s;
     reconnectTimerRef := reconnectTimerRef s;
     isManualDisconnect := isManualDisconnect s; sockets := sockets s;
     next_socket := next_socket s; timers := timers s;
     next_timer := next_timer s; calls := calls s; console := [] |}.

(** A state with the callback calls and the console left out. *)
Definition without_observations (s : State) : State :=
  set_calls [] (without_console s).

(** *** Shapes of the browser state *)

(** Socket numbers and timer handles in use are below the next ones. *)
Definition handles_fresh (s : State) : Prop :=
  (∀ i, is_Some (sockets s !! i) → i < next_socket s)
  ∧ (∀ i, socketRef s = Some i → i < next_socket s)
  ∧ (∀ h, is_Some (timers s !! h) → h < next_timer s).

(** The three timers the provider makes, for given props. *)
Definition provider_timer (props : Props) (tm : Timer) : Prop :=
  match task tm with
  | heartbeat_tick _ =>
      repeats tm = true ∧ delay tm = heartbeatInterval props
      ∧ (0 < heartbeatInterval props)%Z
  | retry_connect _ => repeats tm = false ∧ delay tm = reconnectInterval props
  | reconnect_connect _ => repeats tm = false ∧ delay tm = 100%Z
  end.

(** *** The hooks on the context (lines 255-293) *)

(** [useWebSocket]: the context, or the error it throws outside a
    provider. *)
Definition useWebSocket {A : Type} (context : option A) : A + string :=
  match context with
  | Some value => inl value
  | None => inr "useWebSocket must be used within a WebSocketProvider"
  end.

(** The effect of [useWebSocketChannel] (lines 271-276): the state after
    it has run, and the cleanup it returns, if any. *)
Definition useWebSocketChannel (c : WebSocketChannel) (cb : Callback)
    (enabled : bool) (s : State) : State * option (State → State) :=
  if negb enabled then (s, None)
  else
    let '(s, unsubscribe) := subscribe c cb s in
    (s, Some unsubscribe).

Definition useLiveTransactions (cb : Callback) :=
  useWebSocketChannel transactions cb true.

Definition useLivePrices (cb : Callback) :=
  useWebSocketChannel prices cb true.

Definition useLiveSecurityEvents (cb : Callback) :=
  useWebSocketChannel security cb true.

Definition useLiveNotifications (cb : Callback) :=
  useWebSocketChannel notifications cb true.

(** Running a cleanup, when the effect returned one. *)
Definition cleanup (f : option (State → State)) (s : State) : State :=
  match f with
  | Some unsubscribe => unsubscribe s
  | None => s
  end.

(** ** The status widget (WebSocketStatus) *)

Module WebSocketStatusWidget.

Definition getStatusColor (st : WebSocketStatus) : string :=
  match st with
  | connected => "bg-green-500"
  | connecting => "bg-yellow-500 animate-pulse"
  | disconnected => "bg-gray-400"
  | error => "bg-red-500"
  | _ => "bg-gray-400"
  end.

Definition getStatusText (st : WebSocketStatus) : string :=
  match st with
  | connected => "Live"
  | connecting => "Connecting..."
  | disconnected => "Offline"
  | error => "Error"
  | _ => "Unknown"
  end.

(** [status === 'disconnected' || status === 'error'] *)
Definition showReconnect (st : WebSocketStatus) : bool :=
  bool_decide (st = disconnected) || bool_decide (st = error).

End WebSocketStatusWidget.

(** ** The notification store (NotificationContext) *)

Module NotificationContext.

Record Notification := {
  id : string;
  type : JsValue;
  title : JsValue;
  message : JsValue;
  timestamp : Z;
  read : bool;
  priority : JsValue;
  actionUrl : JsValue;
  actionLabel : JsValue;
  metadata : JsValue
}.

(** [Omit<Notification, 'id' | 'timestamp' | 'read'>] *)
Record NotificationInput := {
  in_type : JsValue;
  in_title : JsValue;
  in_message : JsValue;
  in_priority : JsValue;
  in_actionUrl : JsValue;
  in_actionLabel : JsValue;
  in_metadata : JsValue
}.

Record NotificationPreferences := {
  enabled : bool;
  showDesktopNotifications : bool;
  showToasts : bool;
  soundEnabled : bool;
  minPriority : string;
  mutedTypes : list string
}.

Definition MAX_NOTIFICATIONS : nat := 100.

Definition DEFAULT_PREFERENCES : NotificationPreferences :=
  {| enabled := true; showDesktopNotifications := false; showToasts := true;
     soundEnabled := false; minPriority := "low"; mutedTypes := [] |}.

(** [Notification.permission] of the browser. *)
Inductive Permission := granted | denied | default.

#[global] Instance Permission_eq_dec : EqDecision Permission.
Proof. solve_decision. Defined.

(** What [addNotification] asks of the browser. *)
Inductive Desktop :=
  | shown (title body : JsValue)
      (* [new Notification(title, { body, icon })] *)
  | permission_requested (title body : JsValue).
      (* [Notification.requestPermission()], with the notification to
         show if it is granted *)

(** The provider's state, and what it has asked of the browser. *)
Record Store := {
  notifications : list Notification;
  preferences : NotificationPreferences;
  desktop : list Desktop
}.

(** The browser as [addNotification] sees it:
    ['Notification' in window] and [Notification.permission]. *)
Record Browser := { has_Notification : bool; permission : Permission }.

(** [mutedTypes.includes(type)] *)
Definition includes (muted : list string) (ty : JsValue) : bool :=
  existsb (strict_eq_str ty) muted.

(** [notifications.filter(n => !n.read).length] *)
Definition unreadCount (st : Store) : nat :=
  length (filter (λ n, read n = false) (notifications st)).

(** [addNotification] (lines 94-138).  [new_id] stands for
    [`${Date.now()}-${Math.random()}`] and [now] for [new Date()]; the
    result is the value returned, [None] for [undefined]. *)
Definition addNotification (browser : Browser) (new_id : string) (now : Z)
    (notification : NotificationInput) (st : Store)
    : Store * option Notification :=
  if negb (enabled (preferences st)) then (st, None)
  else if includes (mutedTypes (preferences st)) (in_type notification)
  then (st, None)
  else
    let newNotification :=
      {| id := new_id; type := in_type notification;
         title := in_title notification; message := in_message notification;
         timestamp := now; read := false;
         priority := in_priority notification;
         actionUrl := in_actionUrl notification;
         actionLabel := in_actionLabel notification;
         metadata := in_metadata notification |} in
    let listed := take MAX_NOTIFICATIONS (newNotification :: notifications st) in
    let asked :=
      if showDesktopNotifications (preferences st) && has_Notification browser
      then
        match permission browser with
        | granted => [shown (title newNotification) (message newNotification)]
        | denied => []
        | default =>
            [permission_requested (title newNotification) (message newNotification)]
        end
      else [] in
    ({| notifications := listed; preferences := preferences st;
        desktop := desktop st ++ asked |},
     Some newNotification).

(** The [then] of [requestPermission()] (lines 114-121), for the answer
    the user gave. *)
Definition permission_answered (answer : Permission) (title body : JsValue)
    (st : Store) : Store :=
  match answer with
  | granted =>
      {| notifications := notifications st; preferences := preferences st;
         desktop := desktop st ++ [shown title body] |}
  | _ => st
  end.

(** [a || b] *)
Definition or_else (a b : JsValue) : JsValue :=
  if truthy a then a else b.

(** [handleLiveNotification] (lines 142-152): [None] when reading a
    property of [data] throws. *)
Definition handleLiveNotification (browser : Browser) (new_id : string) (now : Z)
    (data : JsValue) (st : Store) : option Store :=
  ty ← get_prop data "type";
  title ← get_prop data "title";
  message ← get_prop data "message";
  priority ← get_prop data "priority";
  actionUrl ← get_prop data "actionUrl";
  actionLabel ← get_prop data "actionLabel";
  metadata ← get_prop data "metadata";
  Some (addNotification browser new_id now
          {| in_type := or_else ty (JStr "info"); in_title := title;
             in_message := message;
             in_priority := or_else priority (JStr "medium");
             in_actionUrl := actionUrl; in_actionLabel := actionLabel;
             in_metadata := metadata |} st).1.

Definition with_notifications (l : list Notification) (st : Store) : Store :=
  {| notifications := l; preferences := preferences st; desktop := desktop st |}.

Definition mark_read (n : Notification) : Notification :=
  {| id := id n; type := type n; title := title n; message := message n;
     timestamp := timestamp n; read := true; priority := priority n;
     actionUrl := actionUrl n; actionLabel := actionLabel n;
     metadata := metadata n |}.

(** [markAsRead] (lines 156-160) *)
Definition markAsRead (i : string) (st : Store) : Store :=
  with_notifications
    (map (λ n, if bool_decide (id n = i) then mark_read n else n)
       (notifications st)) st.

(** [markAllAsRead] (lines 162-164) *)
Definition markAllAsRead (st : Store) : Store :=
  with_notifications (map mark_read (notifications st)) st.

(** [deleteNotification] (lines 166-168) *)
Definition deleteNotification (i : string) (st : Store) : Store :=
  with_notifications (filter (λ n, id n ≠ i) (notifications st)) st.

(** [clearAll] (lines 170-172) *)
Definition clearAll (st : Store) : Store := with_notifications [] st.

End NotificationContext.

(** *** Sessions that stay disconnected *)

(** The events that do not call [connect]: everything but the mount
    effect and the [connect] and [reconnect] of the context value. *)
Definition keeps_disconnected (e : Event) : bool :=
  match e with
  | mount | call_connect | call_reconnect => false
  | _ => true
  end.

(** *** Sessions that only auto-connect *)

(** The events other than a call of [connect] or [reconnect] through the
    context value.  With these only, a transport is made by the mount
    effect or by a retry of a transport it made. *)
Definition keeps_first_connect (e : Event) : bool :=
  match e with
  | call_connect | call_reconnect => false
  | _ => true
  end.

(** A timer callback that, when it connects, connects with an empty
    [subscriptions]. *)
Definition captured_nothing (t : TimerTask) : Prop :=
  match t with
  | heartbeat_tick _ => True
  | retry_connect captured | reconnect_connect captured => captured = []
  end.

(** No callback was called yet, and no handler or pending [connect]
    holds a subscription. *)
Definition deaf (s : State) : Prop :=
  calls s = []
  ∧ (∀ i k, sockets s !! i = Some k → closure_subscriptions k = [])
  ∧ (∀ h tm, timers s !! h = Some tm → captured_nothing (task tm)).

(** [null] and [undefined], the values a property cannot be read from. *)
Definition nullish (v : JsValue) : bool :=
  match v with
  | JUndefined | JNull => true
  | _ => false
  end.

(** * Properties *)

Section Dispatch.

Variable throws : Callback → JsValue → bool.

Lemma set_calls_same s : set_calls (calls s) s = s.
Proof. by destruct s. Qed.

Lemma set_calls_twice l1 l2 s : set_calls l2 (set_calls l1 s) = set_calls l2 s.
Proof. done. Qed.

Lemma forEach_callback_spec subs arg s :
  forEach_callback throws subs arg s =
    (set_calls (calls s ++ until_throw throws (with_arg arg subs)) s,
     if some_throw throws (with_arg arg subs) then thrown else normal).
Proof.
  revert s. induction subs as [|sub rest IH]; intros s; simpl.
  - by rewrite app_nil_r, set_calls_same.
  - destruct (throws (callback sub) arg) eqn:Hthrow; simpl.
    + done.
    + rewrite IH. simpl. by rewrite set_calls_twice, <- app_assoc.
Qed.

Lemma until_throw_app l1 l2 :
  until_throw throws (l1 ++ l2) =
    if some_throw throws l1 then until_throw throws l1
    else l1 ++ until_throw throws l2.
Proof.
  induction l1 as [|c rest IH]; simpl; [done|].
  destruct (throws c.1 c.2); simpl; [done|].
  rewrite IH. by destruct (some_throw throws rest).
Qed.

Lemma until_throw_none l : some_throw throws l = false → until_throw throws l = l.
Proof.
  induction l as [|c rest IH]; simpl; [done|].
  destruct (throws c.1 c.2); simpl; [done|]. intros H. by rewrite IH.
Qed.

Lemma some_throw_app l1 l2 :
  some_throw throws (l1 ++ l2) = some_throw throws l1 || some_throw throws l2.
Proof. apply existsb_app. Qed.

(** Reading a property of a value that has properties never throws. *)
Lemma get_prop_total message key key' v :
  get_prop message key = Some v → is_Some (get_prop message key').
Proof. destruct message; simpl; intros; try done; eauto. Qed.

(** [onmessage] on a message that is not a pong: it makes the calls of
    [targets] until one throws, and logs if one did. *)
Lemma onmessage_dispatch captured message ty s :
  get_prop message "type" = Some ty →
  strict_eq_str ty "pong" = false →
  onmessage throws captured (Some message) s =
    let s' := set_calls (calls s ++ until_throw throws (targets captured message)) s in
    if some_throw throws (targets captured message)
    then print (console_error "Failed to parse WebSocket message:") s'
    else s'.
Proof.
  intros Hty Hpong. unfold onmessage, onmessage_try. rewrite Hty, Hpong.
  destruct (get_prop_total _ _ "channel" _ Hty) as [ch Hch].
  destruct (get_prop_total _ _ "data" _ Hty) as [data Hdata].
  unfold route_channel, route_system, targets. rewrite Hch, Hdata.
  fold (channel_targets captured ch). fold (system_targets captured).
  destruct (truthy ch).
  - rewrite forEach_callback_spec.
    rewrite until_throw_app, some_throw_app.
    destruct (some_throw throws (with_arg data (channel_targets captured ch)))
      eqn:Hfirst; simpl.
    + done.
    + rewrite forEach_callback_spec. simpl.
      rewrite set_calls_twice, <- app_assoc, (until_throw_none _ Hfirst).
      by destruct (some_throw throws (with_arg message (system_targets captured))).
  - simpl. rewrite forEach_callback_spec.
    by destruct (some_throw throws (with_arg message (system_targets captured))).
Qed.

Lemma onmessage_calls captured parsed s :
  calls (onmessage throws captured parsed s) =
    calls s ++ dispatched throws captured parsed.
Proof.
  unfold dispatched. destruct parsed as [message|]; simpl.
  2: { unfold onmessage; simpl. by rewrite app_nil_r. }
  destruct (get_prop message "type") as [ty|] eqn:Hty; simpl.
  2: { unfold onmessage, onmessage_try. rewrite Hty. simpl. by rewrite app_nil_r. }
  destruct (strict_eq_str ty "pong") eqn:Hpong.
  - unfold onmessage, onmessage_try. rewrite Hty, Hpong. by rewrite app_nil_r.
  - rewrite (onmessage_dispatch _ _ _ _ Hty Hpong). simpl.
    by destruct (some_throw throws (targets captured message)).
Qed.

Lemma onmessage_sockets captured parsed s :
  sockets (onmessage throws captured parsed s) = sockets s.
Proof.
  destruct parsed as [message|]; [|done].
  destruct (get_prop message "type") as [ty|] eqn:Hty.
  2: { unfold onmessage, onmessage_try. by rewrite Hty. }
  destruct (strict_eq_str ty "pong") eqn:Hpong.
  - unfold onmessage, onmessage_try. by rewrite Hty, Hpong.
  - rewrite (onmessage_dispatch _ _ _ _ Hty Hpong). simpl.
    by destruct (some_throw throws (targets captured message)).
Qed.

Lemma socket_message_sockets i parsed s :
  sockets (socket_message throws i parsed s) = sockets s.
Proof.
  unfold socket_message. destruct (sockets s !! i) as [k|]; [|done].
  destruct (readyState k); try done. apply onmessage_sockets.
Qed.

Lemma socket_message_calls i parsed s :
  calls (socket_message throws i parsed s) = calls s ++ emitted throws i s parsed.
Proof.
  unfold socket_message, emitted. destruct (sockets s !! i) as [k|].
  - destruct (readyState k); rewrite ?app_nil_r; try done. apply onmessage_calls.
  - by rewrite app_nil_r.
Qed.

Lemma deliver_calls i frames s :
  calls (deliver throws i frames s) =
    calls s ++ concat (map (emitted throws i s) frames).
Proof.
  revert s. induction frames as [|f rest IH]; intros s; simpl.
  - by rewrite app_nil_r.
  - unfold deliver in *. simpl. rewrite IH, socket_message_calls, <- app_assoc.
    do 3 f_equal. apply map_ext. intros f'. unfold emitted.
    by rewrite socket_message_sockets.
Qed.

End Dispatch.

(** ** The message handler *)

(** C5, as stated, fails: with two callbacks registered for the channel
    of a frame, when the first one throws the second one is not
    called. *)
Lemma listener_throw_stops_dispatch :
  let captured := [ {| channel := transactions; callback := 1 |};
                    {| channel := transactions; callback := 2 |} ] in
  let result :=
    onmessage (only_throws 1) captured
      (Some (frame "tx" "transactions" (JNum 5))) initial in
  channel_targets captured (JStr "transactions") = captured
  ∧ calls result = [(1, JNum 5)]
  ∧ ¬ (∃ arg, (2, arg) ∈ calls result).
Proof.
  split; [done|]. split; [done|].
  intros [arg Harg]. vm_compute in Harg.
  apply list_elem_of_singleton in Harg. congruence.
Qed.

(** C5 (amended): when a callback registered for the channel of a frame
    throws during dispatch, the callbacks registered for that frame
    before it, and it, have been called with the frame's data; none of
    those after it is called, nor is the global handler run; the
    handler catches the exception and logs it, and nothing else of the
    session changes. *)
Theorem onmessage_listener_throw throws captured message ty ch data s
    before thrower after :
  get_prop message "type" = Some ty →
  strict_eq_str ty "pong" = false →
  get_prop message "channel" = Some ch →
  truthy ch = true →
  get_prop message "data" = Some data →
  channel_targets captured ch = before ++ thrower :: after →
  Forall (λ sub, throws (callback sub) data = false) before →
  throws (callback thrower) data = true →
  onmessage throws captured (Some message) s =
    print (console_error "Failed to parse WebSocket message:")
      (set_calls (calls s ++ with_arg data (before ++ [thrower])) s).
Proof.
  intros Hty Hpong Hch Htruthy Hdata Hsplit Hbefore Hthrower.
  rewrite (onmessage_dispatch _ _ _ _ _ Hty Hpong). simpl.
  unfold targets. rewrite Hch, Hdata, Htruthy, Hsplit.
  assert (some_throw throws (with_arg data before) = false) as Hquiet.
  { clear Hsplit. induction Hbefore as [|sub rest Hsub _ IH]; simpl; [done|].
    by rewrite Hsub. }
  assert (until_throw throws (with_arg data (before ++ thrower :: after)) =
          with_arg data (before ++ [thrower])) as Hcalls.
  { unfold with_arg. rewrite !map_app. fold (with_arg data before).
    rewrite until_throw_app, Hquiet. simpl. by rewrite Hthrower. }
  assert (some_throw throws (with_arg data (before ++ thrower :: after)) = true)
    as Hsome.
  { unfold with_arg. rewrite map_app. fold (with_arg data before).
    rewrite some_throw_app, Hquiet. simpl. by rewrite Hthrower. }
  rewrite until_throw_app, some_throw_app, Hsome, Hcalls. done.
Qed.

Lemma onmessage_listener_throw_witness :
  onmessage (only_throws 1)
    [ {| channel := transactions; callback := 1 |};
      {| channel := transactions; callback := 2 |} ]
    (Some (frame "tx" "transactions" (JNum 5))) initial =
  print (console_error "Failed to parse WebSocket message:")
    (set_calls (calls initial ++ with_arg (JNum 5)
       ([] ++ [ {| channel := transactions; callback := 1 |} ])) initial).
Proof.
  apply (onmessage_listener_throw (only_throws 1) _ _ (JStr "tx")
           (JStr "transactions") (JNum 5) initial []
           {| channel := transactions; callback := 1 |}
           [ {| channel := transactions; callback := 2 |} ]);
    try reflexivity.
  constructor.
Defined.

(** C7, as stated, fails for ping: an inbound frame of type ping is
    handed to the subscribers of its channel and to those of the
    [system] topic like any application frame. *)
Lemma inbound_ping_is_forwarded :
  calls (onmessage never_throws [ {| channel := system; callback := 9 |} ]
           (Some (JObj [("type", JStr "ping")])) initial)
    = [(9, JObj [("type", JStr "ping")])]
  ∧ calls (onmessage never_throws [ {| channel := prices; callback := 4 |} ]
             (Some (frame "ping" "prices" (JNum 1))) initial)
    = [(4, JNum 1)].
Proof. split; reflexivity. Qed.

(** C7 (amended): every inbound frame of type pong is consumed by the
    message handler: whatever socket it arrives on and whatever is
    registered, no subscriber callback is called for it and the state is
    left as it was. *)
Theorem pong_is_consumed throws i message s :
  get_prop message "type" = Some (JStr "pong") →
  socket_message throws i (Some message) s = s
  ∧ ∀ captured, onmessage throws captured (Some message) s = s.
Proof.
  intros Hty.
  assert (∀ captured, onmessage throws captured (Some message) s = s) as Hpong.
  { intros captured. unfold onmessage, onmessage_try. by rewrite Hty. }
  split; [|done].
  unfold socket_message. destruct (sockets s !! i) as [k|]; [|done].
  destruct (readyState k); auto.
Qed.

Lemma pong_is_consumed_witness :
  let pong := JObj [("type", JStr "pong"); ("channel", JStr "system")] in
  let s := run default_props never_throws
             [call_subscribe system 9; call_connect; open_event 0] initial in
  socket_message never_throws 0 (Some pong) s = s
  ∧ ∀ captured, onmessage never_throws captured (Some pong) s = s.
Proof.
  intros pong s. apply (pong_is_consumed never_throws 0 pong s). reflexivity.
Defined.

(** C9, as stated, fails for a payload that decodes but has no [type]:
    it is neither logged nor discarded, but routed by its channel. *)
Lemma frame_without_type_is_dispatched :
  let payload := JObj [("channel", JStr "transactions"); ("data", JNum 1)] in
  let result :=
    onmessage never_throws [ {| channel := transactions; callback := 7 |} ]
      (Some payload) initial in
  get_prop payload "type" = Some JUndefined
  ∧ calls result = [(7, JNum 1)]
  ∧ console result = [].
Proof. repeat split; reflexivity. Qed.

(** C9 (amended): for every inbound frame whose payload is not valid
    JSON, or is the JSON value null, the handler logs the failure and
    discards the frame: it returns (no exception leaves it), it calls no
    callback and changes nothing of the session but the console; and
    the frames delivered before and after it on the same socket are
    dispatched to their callbacks exactly as they are without it. *)
Theorem undecodable_frame_is_discarded throws captured parsed s :
  undecodable parsed →
  onmessage throws captured parsed s =
    print (console_error "Failed to parse WebSocket message:") s
  ∧ ∀ i before after,
      calls (deliver throws i (before ++ parsed :: after) s) =
      calls (deliver throws i (before ++ after) s).
Proof.
  intros Hbad. split.
  - by destruct Hbad as [-> | ->].
  - intros i before after. rewrite !deliver_calls, !map_app, !concat_app. simpl.
    assert (emitted throws i s parsed = []) as ->; [|done].
    unfold emitted. destruct (sockets s !! i) as [k|]; [|done].
    destruct (readyState k); try done. by destruct Hbad as [-> | ->].
Qed.

Lemma undecodable_frame_is_discarded_witness :
  let s := run default_props never_throws
             [call_subscribe transactions 1; call_subscribe prices 2;
              call_connect; open_event 0] initial in
  let captured := [ {| channel := transactions; callback := 1 |};
                    {| channel := prices; callback := 2 |} ] in
  onmessage never_throws captured None s =
    print (console_error "Failed to parse WebSocket message:") s
  ∧ ∀ i before after,
      calls (deliver never_throws i (before ++ None :: after) s) =
      calls (deliver never_throws i (before ++ after) s).
Proof.
  intros s captured.
  apply (undecodable_frame_is_discarded never_throws captured None s).
  left. reflexivity.
Defined.

(** The scenario of the specification: one frame for each of two
    channels and a malformed one between them. *)
Example two_channels_and_a_malformed_frame :
  let s := run default_props never_throws
             [call_subscribe transactions 1; call_subscribe prices 2;
              call_connect; open_event 0] initial in
  calls (deliver never_throws 0
           [Some (frame "tx" "transactions" (JNum 10)); None;
            Some (frame "price" "prices" (JNum 20))] s)
    = [(1, JNum 10); (2, JNum 20)].
Proof. reflexivity. Qed.

(** ** Which registry a handler routes by *)

(** Writing the registry does not change what the handler of a socket
    calls for a frame. *)
Lemma socket_message_ignores_registry throws f i parsed s :
  new_calls (setSubscriptions f s)
    (socket_message throws i parsed (setSubscriptions f s))
  = new_calls s (socket_message throws i parsed s).
Proof.
  unfold new_calls. rewrite !socket_message_calls, !drop_app_length. done.
Qed.

(** C1 fails on the code: the handler of a socket routes by the
    [subscriptions] its [connect] captured, not by the registry at the
    moment the frame arrives.  First run, the application as it is
    written: a component subscribes, the mount effect connects, the
    socket opens; the callback is registered and is not called.  Second
    run: the same with the subscription made after the socket has
    opened.  Third run: a callback that was captured is still called
    after it has been unsubscribed. *)
Theorem handler_routes_by_captured_subscriptions :
  let tx := Some (frame "tx" "transactions" (JNum 1)) in
  let early := run default_props never_throws
                 [call_subscribe transactions 7; mount; open_event 0] initial in
  let late := run default_props never_throws
                [mount; open_event 0; call_subscribe transactions 7] initial in
  let gone := run default_props never_throws
                [call_subscribe transactions 7; call_connect; open_event 0;
                 call_unsubscribe transactions 7] initial in
  (subscriptions early = [ {| channel := transactions; callback := 7 |} ]
   ∧ socket_is_open 0 early = true
   ∧ calls (step default_props never_throws early (message_event 0 tx)) = [])
  ∧ (subscriptions late = [ {| channel := transactions; callback := 7 |} ]
     ∧ socket_is_open 0 late = true
     ∧ calls (step default_props never_throws late (message_event 0 tx)) = [])
  ∧ (subscriptions gone = []
     ∧ calls (step default_props never_throws gone (message_event 0 tx))
       = [(7, JNum 1)]).
Proof. repeat split; reflexivity. Qed.

(** ** The registry *)

Section Registry.

Variable props : Props.
Variable throws : Callback → JsValue → bool.

(** Only [subscribe] and [unsubscribe] write the registry. *)

Lemma socket_send_subscriptions i v s :
  subscriptions (socket_send i v s) = subscriptions s.
Proof. unfold socket_send. by repeat case_match. Qed.

Lemma socket_close_subscriptions i s :
  subscriptions (socket_close i s) = subscriptions s.
Proof. unfold socket_close. by repeat case_match. Qed.

Lemma resubscribe_subscriptions i captured s :
  subscriptions
    (foldl (λ s sub, socket_send i (subscribe_frame (channel sub)) s) s captured)
  = subscriptions s.
Proof.
  revert s. induction captured as [|sub rest IH]; intros s; simpl; [done|].
  by rewrite IH, socket_send_subscriptions.
Qed.

Lemma connect_subscriptions captured s :
  subscriptions (connect props captured s) = subscriptions s.
Proof. unfold connect, new_WebSocket. by repeat case_match. Qed.

Lemma onopen_subscriptions i captured s :
  subscriptions (onopen props i captured s) = subscriptions s.
Proof.
  unfold onopen, setInterval. rewrite resubscribe_subscriptions.
  by repeat case_match.
Qed.

Lemma onclose_subscriptions captured s :
  subscriptions (onclose props captured s) = subscriptions s.
Proof. unfold onclose, setTimeout. by repeat (case_match; simpl in * ). Qed.

Lemma disconnect_subscriptions s :
  subscriptions (disconnect s) = subscriptions s.
Proof.
  unfold disconnect. simpl.
  repeat (case_match; simpl); by rewrite ?socket_close_subscriptions.
Qed.

Lemma send_subscriptions message s :
  subscriptions (send message s) = subscriptions s.
Proof.
  unfold send. repeat case_match; try done. apply socket_send_subscriptions.
Qed.

Lemma onmessage_subscriptions captured parsed s :
  subscriptions (onmessage throws captured parsed s) = subscriptions s.
Proof.
  destruct parsed as [message|]; [|done].
  destruct (get_prop message "type") as [ty|] eqn:Hty.
  2: { unfold onmessage, onmessage_try. by rewrite Hty. }
  destruct (strict_eq_str ty "pong") eqn:Hpong.
  - unfold onmessage, onmessage_try. by rewrite Hty, Hpong.
  - rewrite (onmessage_dispatch _ _ _ _ _ Hty Hpong). simpl.
    by destruct (some_throw throws (targets captured message)).
Qed.

Lemma timer_fires_subscriptions h s :
  subscriptions (timer_fires props h s) = subscriptions s.
Proof.
  unfold timer_fires, run_task, heartbeat.
  repeat case_match;
    by rewrite ?connect_subscriptions, ?socket_send_subscriptions.
Qed.

(** What one event does to the registry. *)
Lemma step_subscriptions s e :
  subscriptions (step props throws s e) =
    match e with
    | call_subscribe c cb =>
        if bool_decide (Exists (same_subscription c cb) (subscriptions s))
        then subscriptions s
        else subscriptions s ++ [ {| channel := c; callback := cb |} ]
    | call_unsubscribe c cb | call_returned_unsubscribe c cb =>
        filter (λ x, ¬ same_subscription c cb x) (subscriptions s)
    | _ => subscriptions s
    end.
Proof.
  destruct e; simpl.
  - case_match; [apply connect_subscriptions | done].
  - apply disconnect_subscriptions.
  - apply connect_subscriptions.
  - apply disconnect_subscriptions.
  - unfold reconnect. simpl. apply disconnect_subscriptions.
  - apply send_subscriptions.
  - case_match; [|done]. by rewrite send_subscriptions.
  - unfold unsubscribe. case_match; [|done]. by rewrite send_subscriptions.
  - case_match; [|done]. by rewrite send_subscriptions.
  - unfold socket_opens. repeat case_match; try done.
    by rewrite onopen_subscriptions.
  - unfold socket_message. repeat case_match; try done.
    apply onmessage_subscriptions.
  - unfold socket_errors. by repeat case_match.
  - unfold socket_closes. repeat case_match; try done;
      by rewrite onclose_subscriptions.
  - apply timer_fires_subscriptions.
Qed.

Lemma same_subscription_eq c cb x :
  same_subscription c cb x ↔ x = {| channel := c; callback := cb |}.
Proof.
  unfold same_subscription. destruct x as [c' cb']; simpl. split.
  - by intros [-> ->].
  - intros [= -> ->]. done.
Qed.

(** Invariant: the registry never holds the same (topic, callback)
    pair twice. *)
Lemma step_NoDup s e :
  NoDup (subscriptions s) → NoDup (subscriptions (step props throws s e)).
Proof.
  intros Hnodup. rewrite step_subscriptions.
  destruct e; try done; try by apply NoDup_filter.
  case_bool_decide as Hexists; [done|].
  apply NoDup_app. split; [done|].
  split; [|apply NoDup_singleton].
  intros x Hx Hnew. apply list_elem_of_singleton in Hnew. subst x.
  apply Hexists, Exists_exists. eexists. split; [exact Hx|].
  by apply same_subscription_eq.
Qed.

Lemma run_NoDup events s :
  NoDup (subscriptions s) → NoDup (subscriptions (run props throws events s)).
Proof.
  revert s. induction events as [|e rest IH]; intros s Hs; simpl; [done|].
  apply IH. by apply step_NoDup.
Qed.

End Registry.

Section RegistryClaims.

Variable props : Props.
Variable throws : Callback → JsValue → bool.

Lemma subscribe_subscriptions c cb s :
  subscriptions (fst (subscribe c cb s)) =
    if bool_decide (Exists (same_subscription c cb) (subscriptions s))
    then subscriptions s
    else subscriptions s ++ [ {| channel := c; callback := cb |} ].
Proof. simpl. case_match; [|done]. by rewrite send_subscriptions. Qed.

Lemma subscribe_registers c cb s :
  Exists (same_subscription c cb) (subscriptions (fst (subscribe c cb s))).
Proof.
  rewrite subscribe_subscriptions. case_bool_decide as Hexists; [done|].
  apply Exists_app. right. constructor. done.
Qed.

Lemma filter_same_absent c cb (l : list Subscription) :
  {| channel := c; callback := cb |} ∉ l →
  filter (same_subscription c cb) l = [].
Proof.
  induction l as [|x l IH]; intros Hnot; [done|].
  apply not_elem_of_cons in Hnot as [Hx Hl].
  rewrite filter_cons_False; [auto|]. rewrite same_subscription_eq. congruence.
Qed.

Lemma count_in_NoDup c cb (l : list Subscription) :
  NoDup l → Exists (same_subscription c cb) l →
  length (filter (same_subscription c cb) l) = 1.
Proof.
  induction 1 as [|x l Hx Hnodup IH]; intros Hexists.
  - by apply Exists_nil in Hexists.
  - destruct (decide (same_subscription c cb x)) as [Hsame|Hother].
    + rewrite filter_cons_True by done. simpl.
      apply same_subscription_eq in Hsame. subst x.
      by rewrite filter_same_absent.
    + rewrite filter_cons_False by done. apply IH.
      by apply Exists_cons in Hexists as [?|?].
Qed.

Lemma channel_name_inj c c' : channel_name c = channel_name c' → c = c'.
Proof. by destruct c, c'. Qed.

Lemma channel_name_truthy c : truthy (JStr (channel_name c)) = true.
Proof. by destruct c. Qed.

Lemma channel_targets_by_name captured c :
  channel_targets captured (JStr (channel_name c)) =
    filter (λ sub, channel sub = c) captured.
Proof.
  unfold channel_targets. apply list_filter_iff. intros sub. simpl.
  rewrite bool_decide_spec. split; [|by intros ->].
  intros H. symmetry. by apply channel_name_inj.
Qed.

Lemma invocations_by_channel c cb data (l : list Subscription) :
  invocations cb (with_arg data (filter (λ sub, channel sub = c) l)) =
    length (filter (same_subscription c cb) l).
Proof.
  unfold invocations, with_arg, same_subscription.
  induction l as [|x l IH]; [done|].
  rewrite (filter_cons (λ sub, channel sub = c)).
  rewrite (filter_cons (λ x, channel x = c ∧ callback x = cb)).
  destruct (decide (channel x = c)) as [Hc|Hc].
  - cbn [map]. rewrite filter_cons. cbn [fst].
    destruct (decide (callback x = cb)) as [Hcb|Hcb].
    + rewrite decide_True by done. cbn [length]. f_equal. exact IH.
    + rewrite decide_False by tauto. done.
  - rewrite decide_False by tauto. done.
Qed.

Lemma quiet_targets data (l : list Subscription) :
  Forall (λ sub, throws (callback sub) data = false) l →
  some_throw throws (with_arg data l) = false.
Proof. induction 1 as [|sub rest Hsub _ IH]; simpl; [done|]. by rewrite Hsub. Qed.

(** C8, as stated, fails for the reserved topic: a callback registered
    (once) for [system] is called twice for an envelope on channel
    system, by the channel routing with the data and by the global
    handler with the whole envelope. *)
Lemma system_listener_called_twice :
  let twice := fst (subscribe system 7 (fst (subscribe system 7 initial))) in
  let message := frame "note" "system" (JNum 1) in
  subscriptions twice = [ {| channel := system; callback := 7 |} ]
  ∧ calls (onmessage never_throws (subscriptions twice) (Some message) initial)
    = [(7, JNum 1); (7, message)].
Proof. split; reflexivity. Qed.

(** C8 (amended): registration is idempotent on the registry: in every
    state the provider can reach, calling subscribe(T, cb) twice leaves
    the registry as one call does, with exactly one (T, cb) entry; the
    channel routing of a handler that holds this registry then calls cb
    exactly once, with the data, for an envelope on channel T, when no
    registered callback throws on that data. *)
Theorem subscribe_twice_registers_once events c cb :
  let s := run props throws events initial in
  let once := fst (subscribe c cb s) in
  let twice := fst (subscribe c cb once) in
  subscriptions twice = subscriptions once
  ∧ length (filter (same_subscription c cb) (subscriptions twice)) = 1
  ∧ ∀ message data s',
      get_prop message "channel" = Some (JStr (channel_name c)) →
      get_prop message "data" = Some data →
      Forall (λ sub, throws (callback sub) data = false) (subscriptions twice) →
      let routed := fst (route_channel throws (subscriptions twice) message s') in
      invocations cb (new_calls s' routed) = 1
      ∧ ∀ call, call ∈ new_calls s' routed → call.2 = data.
Proof.
  intros s once twice.
  assert (subscriptions twice = subscriptions once) as Hsame.
  { unfold twice. rewrite subscribe_subscriptions.
    rewrite bool_decide_eq_true_2; [done|]. apply subscribe_registers. }
  assert (length (filter (same_subscription c cb) (subscriptions twice)) = 1)
    as Hone.
  { rewrite Hsame. apply count_in_NoDup; [|apply subscribe_registers].
    change once with (step props throws s (call_subscribe c cb)).
    apply step_NoDup, run_NoDup. constructor. }
  split; [done|]. split; [done|].
  intros message data s' Hch Hdata Hquiet routed.
  assert (new_calls s' routed =
          with_arg data (filter (λ sub, channel sub = c) (subscriptions twice)))
    as Hnew.
  { unfold routed, route_channel, new_calls.
    rewrite Hch, channel_name_truthy, Hdata.
    fold (channel_targets (subscriptions twice) (JStr (channel_name c))).
    rewrite forEach_callback_spec, channel_targets_by_name. simpl.
    rewrite drop_app_length. apply until_throw_none, quiet_targets.
    apply Forall_forall. intros sub Hsub.
    apply list_elem_of_filter in Hsub as [_ Hsub].
    by apply (proj1 (Forall_forall _ _) Hquiet). }
  rewrite Hnew. split.
  - by rewrite invocations_by_channel.
  - intros call Hcall. unfold with_arg in Hcall.
    apply list_elem_of_In, in_map_iff in Hcall as (sub & <- & _). done.
Qed.

End RegistryClaims.

Lemma subscribe_twice_registers_once_witness :
  let s := run default_props never_throws
             [call_subscribe prices 3; call_connect; open_event 0] initial in
  let once := fst (subscribe prices 7 s) in
  let twice := fst (subscribe prices 7 once) in
  let message := frame "price" "prices" (JNum 42) in
  let routed := fst (route_channel never_throws (subscriptions twice) message s) in
  subscriptions twice = subscriptions once
  ∧ invocations 7 (new_calls s routed) = 1.
Proof.
  intros s once twice message routed.
  destruct (subscribe_twice_registers_once default_props never_throws
              [call_subscribe prices 3; call_connect; open_event 0] prices 7)
    as (Hsame & _ & Hroute).
  split; [exact Hsame|].
  apply (Hroute message (JNum 42) s); try reflexivity.
  repeat constructor.
Defined.

(** C10: with the socket of the session open, [unsubscribe(T, cb)]
    removes the pair (T, cb) from the registry and nothing else (the
    other entries stay, in their order), and it always sends on that
    socket one more frame, the object with [type] "unsubscribe" and
    [channel] the name of T, whether or not other callbacks remain
    registered for T; no other socket is sent anything and nothing else
    changes.  The function returned by [subscribe(T, cb)] does the
    same. *)
Theorem unsubscribe_removes_pair_and_always_notifies c cb i k s :
  socketRef s = Some i →
  sockets s !! i = Some k →
  readyState k = OPEN →
  unsubscribe c cb s =
    set_sockets
      (<[i := with_sent
                (JObj [("type", JStr "unsubscribe");
                       ("channel", JStr (channel_name c))]) k]> (sockets s))
      (next_socket s)
      (setSubscriptions
         (filter (λ x, x ≠ {| channel := c; callback := cb |})) s)
  ∧ (sent <$> sockets (unsubscribe c cb s) !! i)
    = Some (sent k ++ [JObj [("type", JStr "unsubscribe");
                             ("channel", JStr (channel_name c))]])
  ∧ (∀ j, j ≠ i → sockets (unsubscribe c cb s) !! j = sockets s !! j)
  ∧ (∀ x, x ≠ {| channel := c; callback := cb |} →
       (x ∈ subscriptions (unsubscribe c cb s) ↔ x ∈ subscriptions s))
  ∧ ({| channel := c; callback := cb |} ∉ subscriptions (unsubscribe c cb s))
  ∧ (∀ s0, snd (subscribe c cb s0) s = unsubscribe c cb s).
Proof.
  intros Href Hsock Hopen.
  assert (filter (λ x, ¬ same_subscription c cb x) (subscriptions s) =
          filter (λ x, x ≠ {| channel := c; callback := cb |}) (subscriptions s))
    as Hfilter.
  { apply list_filter_iff. intros x. by rewrite same_subscription_eq. }
  assert (unsubscribe c cb s =
          set_sockets
            (<[i := with_sent
                      (JObj [("type", JStr "unsubscribe");
                             ("channel", JStr (channel_name c))]) k]> (sockets s))
            (next_socket s)
            (setSubscriptions
               (filter (λ x, x ≠ {| channel := c; callback := cb |})) s))
    as Heq.
  { unfold unsubscribe, send, current_is_open, socket_is_open, socket_send.
    simpl. rewrite Href, Hsock, Hopen. simpl.
    unfold set_sockets, setSubscriptions. simpl. by rewrite Hfilter. }
  split; [exact Heq|]. rewrite Heq. simpl. split; [|split; [|split; [|split]]].
  - by rewrite lookup_insert_eq.
  - intros j Hj. by rewrite lookup_insert_ne.
  - intros x Hx. rewrite list_elem_of_filter. tauto.
  - rewrite list_elem_of_filter. tauto.
  - intros s0. by rewrite <- Heq.
Qed.

Lemma unsubscribe_removes_pair_and_always_notifies_witness :
  let s := run default_props never_throws
             [call_connect; open_event 0;
              call_subscribe prices 1; call_subscribe prices 2] initial in
  subscriptions (unsubscribe prices 1 s) = [ {| channel := prices; callback := 2 |} ]
  ∧ (sent <$> sockets (unsubscribe prices 1 s) !! 0) =
      Some [JObj [("type", JStr "subscribe"); ("channel", JStr "prices")];
            JObj [("type", JStr "subscribe"); ("channel", JStr "prices")];
            JObj [("type", JStr "unsubscribe"); ("channel", JStr "prices")]].
Proof.
  intros s.
  destruct (unsubscribe_removes_pair_and_always_notifies prices 1 0
              {| readyState := OPEN; closure_subscriptions := [];
                 sent := [JObj [("type", JStr "subscribe");
                                ("channel", JStr "prices")];
                          JObj [("type", JStr "subscribe");
                                ("channel", JStr "prices")]] |} s)
    as (Heq & Hsent & _); try reflexivity.
  split; [rewrite Heq; reflexivity | exact Hsent].
Defined.

(** ** [connect] *)

(** C6, as stated, fails while connecting: a second [connect()] before
    the socket has opened makes a second transport and moves
    [socketRef] to it. *)
Lemma connect_while_connecting_opens_another_transport :
  let s := step default_props never_throws initial call_connect in
  let s' := step default_props never_throws s call_connect in
  status s = connecting
  ∧ (readyState <$> sockets s !! 0) = Some CONNECTING
  ∧ socketRef s = Some 0 ∧ size (sockets s) = 1
  ∧ socketRef s' = Some 1 ∧ size (sockets s') = 2
  ∧ s' ≠ s.
Proof. repeat split; try reflexivity. intros Heq. by injection Heq. Qed.

(** C6 (amended): calling [connect()] while the transport of the session
    is open is a no-op: no transport is made and nothing of the state
    changes, whichever render the [connect] comes from. *)
Theorem connect_when_open_is_noop props captured i k s :
  socketRef s = Some i →
  sockets s !! i = Some k →
  readyState k = OPEN →
  connect props captured s = s.
Proof.
  intros Href Hsock Hopen.
  unfold connect, current_is_open, socket_is_open.
  by rewrite Href, Hsock, Hopen.
Qed.

Lemma connect_when_open_is_noop_witness :
  let s := run default_props never_throws [call_connect; open_event 0] initial in
  status s = connected ∧ connect default_props [] s = s.
Proof.
  intros s. split; [reflexivity|].
  apply (connect_when_open_is_noop default_props [] 0
           {| readyState := OPEN; closure_subscriptions := []; sent := [] |} s);
    reflexivity.
Defined.

(** ** The reconnection policy *)

Section Reconnection.

Variable props : Props.
Hypothesis url_ok : url_valid props = true.

Lemma pending_connects_insert_retry h captured (m : gmap nat Timer) :
  filter (λ entry, calls_connect entry.2) m = ∅ →
  filter (λ entry, calls_connect entry.2) (<[h := retry_timer props captured]> m)
  = {[ h := retry_timer props captured ]}.
Proof.
  intros Hnone. rewrite map_filter_insert_True by done.
  by rewrite Hnone, insert_empty.
Qed.

Lemma pending_connects_delete h (m : gmap nat Timer) :
  filter (λ entry, calls_connect entry.2) m = ∅ →
  filter (λ entry, calls_connect entry.2) (delete h m) = ∅.
Proof. intros Hnone. by rewrite map_filter_delete, Hnone, delete_empty. Qed.

(** A close of the transport of the session, at the start of a run or
    after a retry: it schedules the next retry while the counter is
    below the bound, and nothing otherwise. *)
Lemma close_schedules_or_stops captured a s :
  episode_start captured a s →
  if (a <? maxReconnectAttempts props)%Z
  then retry_scheduled props captured (a + 1) (transport_closes props s)
  else retries_over captured a (transport_closes props s).
Proof.
  intros (Hmanual & Hattempts & (i & k & Href & Hsock & Hlive & Hcaptured) & Hnone).
  unfold pending_connects in Hnone.
  assert (transport_closes props s =
          onclose props captured (set_readyState i CLOSED k s)) as ->.
  { unfold transport_closes, socket_closes. rewrite Href, Hsock, Hcaptured.
    by destruct (readyState k). }
  assert (transport_in captured (λ r, r = CLOSED)
            (onclose props captured (set_readyState i CLOSED k s))) as Htransport.
  { exists i, (with_readyState CLOSED k).
    unfold onclose, setTimeout, set_readyState. simpl.
    destruct (heartbeatTimerRef s); simpl; rewrite Hmanual, Hattempts; simpl;
      destruct (a <? maxReconnectAttempts props)%Z; simpl;
      by rewrite lookup_insert_eq. }
  revert Htransport.
  unfold onclose, setTimeout, set_readyState, retry_scheduled, retries_over,
    pending_connects. simpl.
  destruct (heartbeatTimerRef s) as [hb|]; simpl; rewrite Hmanual, Hattempts; simpl;
    destruct (a <? maxReconnectAttempts props)%Z; simpl; intros Htransport;
    repeat split; try done.
  - eexists. split; [done|].
    by apply pending_connects_insert_retry, pending_connects_delete.
  - by apply pending_connects_delete.
  - eexists. split; [done|]. by apply pending_connects_insert_retry.
Qed.

(** With no [connect] pending, no retry fires. *)
Lemma retry_fires_none s :
  pending_connects s = ∅ → retry_fires props s = s.
Proof.
  intros Hnone. unfold retry_fires. destruct (reconnectTimerRef s) as [h|]; [|done].
  destruct (decide (is_Some (pending_connects s !! h))) as [Hsome|_]; [|done].
  rewrite Hnone, lookup_empty in Hsome. by destruct Hsome.
Qed.

(** The scheduled retry fires: [connect] makes a new transport, with the
    same captured values, and the counter keeps its value. *)
Lemma retry_fires_scheduled captured a s :
  retry_scheduled props captured a s →
  episode_start captured a (retry_fires props s).
Proof.
  intros (_ & Hmanual & Hattempts & (i & k & Href & Hsock & Hclosed & Hcaptured)
          & h & Hhandle & Hpending).
  assert (timers s !! h = Some (retry_timer props captured)) as Htimer.
  { assert (pending_connects s !! h = Some (retry_timer props captured)) as Hh
      by (by rewrite Hpending, lookup_singleton_eq).
    unfold pending_connects in Hh. by apply map_lookup_filter_Some in Hh as [? _]. }
  unfold retry_fires. rewrite Hhandle.
  destruct (decide (is_Some (pending_connects s !! h))) as [_|Hno].
  2: { destruct Hno. rewrite Hpending, lookup_singleton_eq. eauto. }
  unfold timer_fires. rewrite Htimer. simpl.
  unfold connect, current_is_open, socket_is_open, new_WebSocket. simpl.
  rewrite Href, Hsock, Hclosed, url_ok. simpl.
  unfold episode_start, transport_in, pending_connects. simpl.
  repeat split; try done.
  - eexists _, _. rewrite lookup_insert_eq. by repeat split.
  - unfold pending_connects in Hpending.
    by rewrite map_filter_delete, Hpending, delete_singleton_eq.
Qed.

(** Once a close has scheduled nothing, nothing more happens. *)
Lemma next_close_over captured a s :
  retries_over captured a s → next_close props s = s.
Proof.
  intros (_ & _ & _ & (i & k & Href & Hsock & Hclosed & _) & Hnone).
  unfold next_close. rewrite (retry_fires_none _ Hnone).
  unfold transport_closes, socket_closes. by rewrite Href, Hsock, Hclosed.
Qed.

(** The state after [n] consecutive closes, counted from a transport
    that is not closed and a counter at [a]. *)
Lemma consecutive_closes_spec captured a s n :
  episode_start captured a s →
  (1 ≤ n)%nat →
  if (a + Z.of_nat n <=? maxReconnectAttempts props)%Z
  then retry_scheduled props captured (a + Z.of_nat n) (consecutive_closes props n s)
  else retries_over captured (Z.max a (maxReconnectAttempts props))
         (consecutive_closes props n s).
Proof.
  intros Hstart Hn. induction n as [|n IH]; [lia|].
  destruct n as [|n].
  - simpl. unfold next_close.
    rewrite (retry_fires_none s) by apply Hstart.
    pose proof (close_schedules_or_stops captured a s Hstart) as Hclose.
    destruct (Z.ltb_spec a (maxReconnectAttempts props)) as [Hlt|Hge].
    + rewrite (proj2 (Z.leb_le _ _)) by lia. exact Hclose.
    + rewrite (proj2 (Z.leb_gt _ _)) by lia.
      by rewrite Z.max_l by lia.
  - specialize (IH ltac:(lia)).
    change (consecutive_closes props (S (S n)) s)
      with (next_close props (consecutive_closes props (S n) s)).
    destruct (Z.leb_spec (a + Z.of_nat (S n)) (maxReconnectAttempts props))
      as [Hle|Hgt].
    + apply retry_fires_scheduled in IH.
      pose proof (close_schedules_or_stops captured _ _ IH) as Hclose.
      unfold next_close.
      destruct (Z.ltb_spec (a + Z.of_nat (S n)) (maxReconnectAttempts props))
        as [Hlt|Hge].
      * rewrite (proj2 (Z.leb_le _ _)) by lia.
        replace (a + Z.of_nat (S (S n)))%Z with (a + Z.of_nat (S n) + 1)%Z by lia.
        exact Hclose.
      * rewrite (proj2 (Z.leb_gt _ _)) by lia.
        replace (Z.max a (maxReconnectAttempts props)) with (a + Z.of_nat (S n))%Z
          by lia.
        exact Hclose.
    + rewrite (proj2 (Z.leb_gt _ _)) by lia.
      by rewrite (next_close_over _ _ _ IH).
Qed.

(** Resubscribing on an open socket only adds to what it has sent. *)
Lemma resubscribe_spec i captured s k :
  sockets s !! i = Some k →
  readyState k = OPEN →
  ∃ k', foldl (λ s sub, socket_send i (subscribe_frame (channel sub)) s) s captured
        = set_sockets (<[i := k']> (sockets s)) (next_socket s) s
        ∧ readyState k' = OPEN
        ∧ closure_subscriptions k' = closure_subscriptions k.
Proof.
  revert s k. induction captured as [|sub rest IH]; intros s k Hsock Hopen.
  - exists k. simpl. rewrite insert_id by done. by destruct s.
  - simpl. unfold socket_send at 2. rewrite Hsock, Hopen. simpl.
    edestruct (IH (set_sockets
                     (<[i := with_sent (subscribe_frame (channel sub)) k]> (sockets s))
                     (next_socket s) s)) as (k' & -> & Hopen' & Hclosure').
    { simpl. apply lookup_insert_eq. }
    { done. }
    exists k'. simpl. by rewrite insert_insert_eq.
Qed.

(** The open event of the transport of the session. *)
Lemma socket_opens_spec i k s :
  sockets s !! i = Some k →
  readyState k = CONNECTING →
  let s' := socket_opens props i s in
  status s' = connected
  ∧ reconnectAttemptsRef s' = 0%Z
  ∧ (socketRef s = Some i → isManualDisconnect s = false →
     pending_connects s = ∅ →
     episode_start (closure_subscriptions k) 0%Z s').
Proof.
  intros Hsock Hconnecting. simpl.
  unfold socket_opens. rewrite Hsock, Hconnecting.
  unfold onopen, setInterval, set_readyState.
  set (beat := (0 <? heartbeatInterval props)%Z).
  match goal with
  | |- context [foldl ?f ?s0 ?l] =>
      destruct (resubscribe_spec i l s0 (with_readyState OPEN k))
        as (k' & Heq & Hopen & Hclosure)
  end.
  { destruct beat; simpl; apply lookup_insert_eq. }
  { done. }
  rewrite Heq. clear Heq.
  destruct beat; simpl; (split; [done|]); (split; [done|]);
    intros Href Hmanual Hnone; unfold episode_start, transport_in; simpl;
    (split; [done|]); (split; [done|]); split.
  - exists i, k'. rewrite lookup_insert_eq, Hopen. by repeat split.
  - unfold pending_connects in *. simpl.
    rewrite map_filter_insert_False by (simpl; tauto).
    by rewrite map_filter_delete, Hnone, delete_empty.
  - exists i, k'. rewrite lookup_insert_eq, Hopen. by repeat split.
  - done.
Qed.


End Reconnection.

(** C3: the open event of a connecting socket sets the status to
    connected and the reconnect counter to 0, whatever the counter was;
    so from there, when that socket is the transport of the session and
    the closes are not manual, each of the next [maxReconnectAttempts]
    consecutive closes schedules a retry: after the n-th, the counter is
    n and one retry is pending. *)
Theorem open_resets_reconnect_counter props i k s :
  sockets s !! i = Some k →
  readyState k = CONNECTING →
  let s' := socket_opens props i s in
  status s' = connected
  ∧ reconnectAttemptsRef s' = 0%Z
  ∧ (url_valid props = true → socketRef s = Some i →
     isManualDisconnect s = false → pending_connects s = ∅ →
     ∀ n, (1 ≤ n)%nat → (Z.of_nat n ≤ maxReconnectAttempts props)%Z →
       reconnectAttemptsRef (consecutive_closes props n s') = Z.of_nat n
       ∧ ∃ h, reconnectTimerRef (consecutive_closes props n s') = Some h
              ∧ pending_connects (consecutive_closes props n s') =
                  {[ h := {| task := retry_connect (closure_subscriptions k);
                             delay := reconnectInterval props;
                             repeats := false |} ]}).
Proof.
  intros Hsock Hconnecting s'.
  destruct (socket_opens_spec props i k s Hsock Hconnecting)
    as (Hstatus & Hzero & Hstart).
  split; [done|]. split; [done|].
  intros Hurl Href Hmanual Hnone n Hn Hle.
  specialize (Hstart Href Hmanual Hnone).
  pose proof (consecutive_closes_spec props Hurl _ 0%Z _ n Hstart Hn) as Hspec.
  rewrite (proj2 (Z.leb_le _ _)) in Hspec by lia.
  destruct Hspec as (_ & _ & Hattempts & _ & Hretry).
  rewrite Z.add_0_l in Hattempts. by split.
Qed.



Lemma open_resets_reconnect_counter_witness :
  let s := run scenario_props never_throws
             [call_connect; open_event 0; close_event 0; timer_event 2;
              close_event 1; timer_event 3] initial in
  reconnectAttemptsRef s = 2%Z
  ∧ reconnectAttemptsRef (socket_opens scenario_props 2 s) = 0%Z
  ∧ reconnectAttemptsRef
      (consecutive_closes scenario_props 2 (socket_opens scenario_props 2 s)) = 2%Z.
Proof.
  intros s.
  destruct (open_resets_reconnect_counter scenario_props 2
              {| readyState := CONNECTING; closure_subscriptions := []; sent := [] |}
              s eq_refl eq_refl)
    as (_ & Hzero & Hbudget).
  split; [reflexivity|]. split; [exact Hzero|].
  apply (Hbudget eq_refl eq_refl eq_refl eq_refl 2%nat);
    [lia | vm_compute; discriminate].
Defined.

(** ** [disconnect] and the timers *)

(** The three tests of [disconnect], case by case. *)
Ltac disconnect_cases s :=
  unfold disconnect, clearInterval, clearTimeout; simpl;
  destruct (heartbeatTimerRef s); simpl;
  destruct (reconnectTimerRef s); simpl;
  destruct (socketRef s); simpl.

Lemma socket_close_timers i s : timers (socket_close i s) = timers s.
Proof. unfold socket_close. by repeat case_match. Qed.

(** [disconnect] cancels the two timers whose handles the refs hold:
    when these are the only pending ones, none is left. *)
Lemma disconnect_cancels_held_timers s :
  (∀ h, is_Some (timers s !! h) →
        heartbeatTimerRef s = Some h ∨ reconnectTimerRef s = Some h) →
  timers (disconnect s) = ∅.
Proof.
  intros Hheld.
  assert (timers (disconnect s) =
          from_option (λ h, delete h) id (reconnectTimerRef s)
            (from_option (λ h, delete h) id (heartbeatTimerRef s) (timers s)))
    as ->.
  { disconnect_cases s; by rewrite ?socket_close_timers. }
  apply map_empty. intros h.
  destruct (timers s !! h) as [tm|] eqn:Htimer.
  - destruct (Hheld h) as [Hhb | Hrc]; [eauto| |].
    + rewrite Hhb. simpl. destruct (reconnectTimerRef s) as [h'|]; simpl.
      * destruct (decide (h' = h)) as [->|Hne].
        -- apply lookup_delete_eq.
        -- rewrite lookup_delete_ne by done. apply lookup_delete_eq.
      * apply lookup_delete_eq.
    + rewrite Hrc. simpl. apply lookup_delete_eq.
  - destruct (reconnectTimerRef s), (heartbeatTimerRef s); simpl;
      rewrite ?lookup_delete_None; tauto.
Qed.

Section AfterDisconnect.

Variable props : Props.
Variable throws : Callback → JsValue → bool.

Lemma sent_with_readyState i r k (m : gmap nat Socket) :
  m !! i = Some k → sent <$> <[i := with_readyState r k]> m = sent <$> m.
Proof.
  intros Hk. rewrite fmap_insert. apply insert_id.
  by rewrite lookup_fmap, Hk.
Qed.

(** With a single transport, [disconnect] leaves the session silent. *)
Lemma disconnect_silent s :
  single_transport s →
  silent (disconnect s)
  ∧ sent <$> sockets (disconnect s) = sent <$> sockets s
  ∧ next_socket (disconnect s) = next_socket s.
Proof.
  intros [Hheld Hone].
  assert (sockets (disconnect s) =
            from_option (λ i, sockets (socket_close i s)) (sockets s) (socketRef s)
          ∧ next_socket (disconnect s) = next_socket s) as [Hsockets Hnext].
  { disconnect_cases s; unfold socket_close; simpl; repeat case_match; done. }
  split; [|split]; [|rewrite Hsockets|done].
  - split; [|split].
    + disconnect_cases s; unfold socket_close; simpl; repeat case_match; done.
    + by apply disconnect_cancels_held_timers.
    + rewrite Hsockets. intros j kj.
      destruct (socketRef s) as [i|] eqn:Href; simpl.
      * unfold socket_close.
        destruct (sockets s !! i) as [k|] eqn:Hi.
        2: { intros Hj. destruct (Hone j kj Hj) as [[= ->]|?]; [congruence|done]. }
        destruct (decide (j = i)) as [->|Hne].
        -- intros Hj.
           destruct (readyState k) eqn:Hr; simpl in Hj;
             rewrite ?lookup_insert_eq, ?Hi in Hj; injection Hj as <-;
             simpl; rewrite ?Hr; auto.
        -- destruct (readyState k); simpl; rewrite ?lookup_insert_ne by done;
             intros Hj; destruct (Hone j kj Hj) as [[= ->]|?]; done.
      * intros Hj. by destruct (Hone j kj Hj).
  - destruct (socketRef s) as [i|]; simpl; [|done].
    unfold socket_close. destruct (sockets s !! i) as [k|] eqn:Hi; [|done].
    destruct (readyState k); simpl; try done; by apply sent_with_readyState.
Qed.

(** In a silent session, an event of the browser sends no frame, makes
    no transport, and leaves the session silent. *)
Lemma silent_step s e :
  silent s →
  from_browser e = true →
  silent (step props throws s e)
  ∧ sent <$> sockets (step props throws s e) = sent <$> sockets s
  ∧ next_socket (step props throws s e) = next_socket s.
Proof.
  intros (Hmanual & Htimers & Hclosed) Hbrowser.
  destruct e as [| | | | | | | | |i|i parsed|i|i|h]; try discriminate; simpl.
  - unfold socket_opens. destruct (sockets s !! i) as [k|] eqn:Hi; [|done].
    by destruct (Hclosed i k Hi) as [-> | ->].
  - unfold socket_message. destruct (sockets s !! i) as [k|] eqn:Hi; [|done].
    by destruct (Hclosed i k Hi) as [-> | ->].
  - unfold socket_errors. destruct (sockets s !! i) as [k|] eqn:Hi; [|done].
    by destruct (Hclosed i k Hi) as [-> | ->].
  - unfold socket_closes. destruct (sockets s !! i) as [k|] eqn:Hi; [|done].
    destruct (Hclosed i k Hi) as [Hr | Hr]; rewrite Hr; [|done].
    assert (∀ j kj, <[i := with_readyState CLOSED k]> (sockets s) !! j = Some kj →
                    readyState kj = CLOSING ∨ readyState kj = CLOSED) as Hclosed'.
    { intros j kj. destruct (decide (j = i)) as [->|Hne].
      - rewrite lookup_insert_eq. intros [= <-]. simpl. auto.
      - rewrite lookup_insert_ne by done. apply Hclosed. }
    unfold onclose, set_readyState, clearInterval, silent. simpl.
    destruct (heartbeatTimerRef s); simpl; rewrite Hmanual; simpl;
      rewrite ?Htimers, ?delete_empty;
      repeat split; try done; by apply sent_with_readyState.
  - unfold timer_fires. by rewrite Htimers, lookup_empty.
Qed.

(** The intent of [disconnect], for a session that has one transport:
    after it, whatever events the browser still delivers, no frame is
    sent (no ping in particular) and no transport is made. *)
Lemma single_transport_stays_silent events s :
  single_transport s →
  forallb from_browser events = true →
  let s' := run props throws events (disconnect s) in
  silent s'
  ∧ sent <$> sockets s' = sent <$> sockets s
  ∧ next_socket s' = next_socket s.
Proof.
  intros Hsingle Hbrowser. simpl.
  destruct (disconnect_silent s Hsingle) as (Hsilent & Hsent & Hnext).
  rewrite <- Hsent, <- Hnext. clear Hsent Hnext Hsingle.
  revert Hsilent Hbrowser. generalize (disconnect s). clear s.
  induction events as [|e rest IH]; intros s Hsilent Hbrowser; [done|].
  simpl in Hbrowser. apply andb_prop in Hbrowser as [He Hrest].
  destruct (silent_step s e Hsilent He) as (Hsilent' & Hsent' & Hnext').
  simpl. rewrite <- Hsent', <- Hnext'. by apply IH.
Qed.

End AfterDisconnect.

(** C4 fails on the code: [disconnect] cancels only the timers whose
    handles are in [heartbeatTimerRef] and [reconnectTimerRef], and
    closes only the socket in [socketRef].  After [connect()] has been
    called twice before the first socket opened, the refs hold the
    handles of the second socket only.  First run: both sockets open,
    [disconnect()] is called, and the heartbeat of the first socket,
    still pending, then sends a ping.  Second run: both sockets fail,
    [disconnect()] is called, and the retry of the first socket, still
    pending, then calls [connect], which makes a new transport. *)
Theorem timers_outlive_manual_disconnect :
  let opened := run default_props never_throws
                  [call_connect; call_connect; open_event 0; open_event 1;
                   call_disconnect] initial in
  let failed := run default_props never_throws
                  [call_connect; call_connect; close_event 0; close_event 1;
                   call_disconnect] initial in
  (status opened = disconnected
   ∧ isManualDisconnect opened = true
   ∧ timers opened =
       {[ 1%nat := {| task := heartbeat_tick 0; delay := 30000; repeats := true |} ]}
   ∧ (sent <$> sockets opened !! 0%nat) = Some []
   ∧ (sent <$> sockets (step default_props never_throws opened (timer_event 1))
               !! 0%nat) = Some [ping_frame])
  ∧ (status failed = disconnected
     ∧ isManualDisconnect failed = true
     ∧ timers failed = {[ 1%nat := retry_timer default_props [] ]}
     ∧ size (sockets failed) = 2%nat
     ∧ status (step default_props never_throws failed (timer_event 1)) = connecting
     ∧ size (sockets (step default_props never_throws failed (timer_event 1)))
       = 3%nat).
Proof. repeat split; vm_compute; reflexivity. Qed.

(** * More of the provider *)

(** ** What each operation leaves alone *)

Lemma socket_send_only_sockets i v s :
  socket_send i v s = set_sockets (sockets (socket_send i v s)) (next_socket s) s.
Proof. unfold socket_send. repeat case_match; by destruct s. Qed.

Lemma socket_close_only_sockets i s :
  socket_close i s = set_sockets (sockets (socket_close i s)) (next_socket s) s.
Proof. unfold socket_close. repeat case_match; by destruct s. Qed.

Lemma resubscribe_only_sockets i captured s :
  foldl (λ s sub, socket_send i (subscribe_frame (channel sub)) s) s captured
  = set_sockets
      (sockets (foldl (λ s sub, socket_send i (subscribe_frame (channel sub)) s)
                  s captured))
      (next_socket s) s.
Proof.
  revert s. induction captured as [|sub rest IH]; intros s; simpl.
  - by destruct s.
  - etransitivity; [apply IH|].
    generalize (sockets
      (foldl (λ s sub, socket_send i (subscribe_frame (channel sub)) s)
         (socket_send i (subscribe_frame (channel sub)) s) rest)).
    intros m. by rewrite socket_send_only_sockets.
Qed.

Lemma onmessage_only_observations throws captured parsed s :
  without_observations (onmessage throws captured parsed s) = without_observations s.
Proof.
  destruct parsed as [message|]; [|done].
  destruct (get_prop message "type") as [ty|] eqn:Hty.
  2: { unfold onmessage, onmessage_try. by rewrite Hty. }
  destruct (strict_eq_str ty "pong") eqn:Hpong.
  - unfold onmessage, onmessage_try. by rewrite Hty, Hpong.
  - rewrite (onmessage_dispatch _ _ _ _ _ Hty Hpong). simpl.
    by destruct (some_throw throws (targets captured message)).
Qed.

(** The provider's operations, unfolded down to the field updates. *)
Ltac unfold_provider :=
  unfold reconnect, subscribe, unsubscribe, send,
    socket_opens, socket_errors, socket_closes, timer_fires,
    run_task, heartbeat, connect, onclose, onerror, disconnect,
    new_WebSocket, setTimeout, setInterval, clearTimeout, clearInterval,
    set_readyState, current_is_open, socket_is_open, socket_send, socket_close in *.

Section Invariants.

Variable props : Props.
Variable throws : Callback → JsValue → bool.

Lemma onopen_fields i captured s :
  let s' := onopen props i captured s in
  status s' = connected ∧ reconnectAttemptsRef s' = 0%Z
  ∧ isManualDisconnect s' = isManualDisconnect s
  ∧ socketRef s' = socketRef s ∧ next_socket s' = next_socket s
  ∧ subscriptions s' = subscriptions s.
Proof.
  unfold onopen, setInterval. rewrite resubscribe_only_sockets.
  by destruct (0 <? heartbeatInterval props)%Z.
Qed.

Lemma socket_message_only_observations i parsed s :
  without_observations (socket_message throws i parsed s) = without_observations s.
Proof.
  unfold socket_message. repeat case_match; try done.
  apply onmessage_only_observations.
Qed.

Lemma onclose_fields captured s :
  let s' := onclose props captured s in
  let retry := negb (isManualDisconnect s)
               && (reconnectAttemptsRef s <? maxReconnectAttempts props)%Z in
  status s' = disconnected
  ∧ reconnectAttemptsRef s' =
      (if retry then reconnectAttemptsRef s + 1 else reconnectAttemptsRef s)%Z
  ∧ isManualDisconnect s' = isManualDisconnect s
  ∧ socketRef s' = socketRef s
  ∧ sockets s' = sockets s ∧ next_socket s' = next_socket s
  ∧ subscriptions s' = subscriptions s.
Proof.
  unfold onclose, setTimeout, clearInterval. simpl.
  destruct (heartbeatTimerRef s); simpl;
    destruct (negb (isManualDisconnect s)
              && (reconnectAttemptsRef s <? maxReconnectAttempts props)%Z); done.
Qed.

Lemma step_attempts s e :
  let a' := reconnectAttemptsRef (step props throws s e) in
  a' = reconnectAttemptsRef s ∨ a' = 0%Z
  ∨ ((reconnectAttemptsRef s < maxReconnectAttempts props)%Z
     ∧ a' = (reconnectAttemptsRef s + 1)%Z).
Proof.
  destruct e; simpl.
  all: try (unfold_provider; repeat (case_match; simpl in * ); auto; fail).
  - unfold socket_opens. repeat case_match; auto.
    right. left. apply onopen_fields.
  - left. apply (f_equal reconnectAttemptsRef (socket_message_only_observations _ _ _)).
  - unfold socket_closes. repeat case_match; auto.
    all: match goal with
         | |- context [onclose props ?c ?s0] =>
             destruct (onclose_fields c s0) as (_ & -> & _)
         end; simpl.
    all: destruct (isManualDisconnect s); simpl; auto.
    all: destruct (Z.ltb_spec (reconnectAttemptsRef s) (maxReconnectAttempts props));
      auto.
Qed.

Lemma run_snoc events e s :
  run props throws (events ++ [e]) s = step props throws (run props throws events s) e.
Proof. unfold run. by rewrite foldl_app. Qed.

(** An invariant of every step holds in every state the provider
    reaches. *)
Lemma run_invariant (P : State → Prop) events :
  P initial →
  (∀ s e, P s → P (step props throws s e)) →
  P (run props throws events initial).
Proof.
  intros Hinit Hstep. induction events as [|e rest IH] using rev_ind; [done|].
  rewrite run_snoc. by apply Hstep.
Qed.

Lemma attempts_invariant events :
  let s := run props throws events initial in
  (0 ≤ reconnectAttemptsRef s)%Z
  ∧ (reconnectAttemptsRef s ≤ Z.max 0 (maxReconnectAttempts props))%Z.
Proof.
  apply (run_invariant (λ s, (0 ≤ reconnectAttemptsRef s)%Z
    ∧ (reconnectAttemptsRef s ≤ Z.max 0 (maxReconnectAttempts props))%Z)).
  - simpl. lia.
  - intros s e [Hlow Hhigh]. pose proof (step_attempts s e) as Hstep.
    simpl in Hstep. lia.
Qed.

(** *** The status *)

Lemma step_status s e :
  status (step props throws s e) = status s
  ∨ status (step props throws s e) ≠ disconnecting.
Proof.
  destruct e; simpl.
  all: try (left; apply (f_equal status (socket_message_only_observations _ _ _))).
  all: try (unfold socket_opens; repeat case_match; auto;
            right; by rewrite (proj1 (onopen_fields _ _ _))).
  all: try (unfold socket_closes; repeat case_match; auto;
            right; by rewrite (proj1 (onclose_fields _ _))).
  all: unfold_provider; repeat (case_match; simpl in * ); auto.
Qed.

Lemma status_invariant events :
  status (run props throws events initial) ≠ disconnecting.
Proof.
  apply (run_invariant (λ s, status s ≠ disconnecting)); [done|].
  intros s e Hs. destruct (step_status s e) as [-> | ?]; done.
Qed.

(** *** A URL the browser refuses *)

Lemma step_invalid_url s e :
  url_valid props = false →
  sockets s = ∅ ∧ socketRef s = None
  ∧ (status s = disconnected ∨ status s = error) →
  let s' := step props throws s e in
  sockets s' = ∅ ∧ socketRef s' = None
  ∧ (status s' = disconnected ∨ status s' = error).
Proof.
  intros Hurl (Hs & Hr & Hst).
  destruct e; simpl; unfold_provider; unfold socket_message; simpl;
    rewrite ?Hs, ?Hr, ?Hurl, ?lookup_empty; simpl; auto.
  all: repeat (case_match; simpl in *; rewrite ?Hs, ?Hr, ?Hurl, ?lookup_empty);
    simpl; auto.
  all: try match goal with
       | H : sockets _ !! _ = Some _ |- _ =>
           rewrite Hs, lookup_empty in H; discriminate H
       | H : socketRef _ = Some _ |- _ => rewrite Hr in H; discriminate H
       end.
Qed.

(** *** The pending timers *)

Lemma step_timers s e h tm :
  timers (step props throws s e) !! h = Some tm →
  timers s !! h = Some tm ∨ provider_timer props tm.
Proof.
  destruct e; simpl.
  all: try (intros Hh; left; rewrite <- Hh;
            exact (f_equal (λ x, timers x !! h)
                     (eq_sym (socket_message_only_observations _ _ _)))).
  all: try (unfold socket_opens; repeat case_match; auto;
            unfold onopen, setInterval; rewrite resubscribe_only_sockets; simpl).
  all: unfold_provider; repeat (case_match; simpl in * ); auto.
  all: intros Hh;
    repeat match goal with
      | H : <[_:=_]> _ !! _ = Some _ |- _ =>
          apply lookup_insert_Some in H as [[<- <-]|[? H]]
      | H : delete _ _ !! _ = Some _ |- _ =>
          apply lookup_delete_Some in H as [? H]
      end; auto.
  all: right; unfold provider_timer; simpl; repeat split; auto.
  all: by apply Z.ltb_lt.
Qed.

Lemma timers_invariant events h tm :
  timers (run props throws events initial) !! h = Some tm →
  provider_timer props tm.
Proof.
  revert h tm.
  apply (run_invariant (λ s, ∀ h tm, timers s !! h = Some tm → provider_timer props tm)).
  - intros h tm. simpl. by rewrite lookup_empty.
  - intros s e Hs h tm Hh. destruct (step_timers s e h tm Hh); auto. eauto.
Qed.

(** *** Socket numbers and timer handles *)

Ltac fresh_cases Hsock Hsock' Href Htimer :=
  repeat split; intros j Hj; simpl in *;
  repeat match goal with
    | H : is_Some (<[_:=_]> _ !! _) |- _ =>
        apply lookup_insert_is_Some in H as [<- | [? H]]
    | H : is_Some (delete _ _ !! _) |- _ =>
        apply lookup_delete_is_Some in H as [? H]
    | H : Some _ = Some _ |- _ => injection H as <-
    | H : sockets _ !! _ = Some _ |- _ => apply Hsock' in H
    end;
  try discriminate;
  first [ lia | specialize (Hsock _ Hj); lia | specialize (Htimer _ Hj); lia
        | specialize (Href _ Hj); lia
        | apply Href; congruence
        | apply Nat.lt_lt_succ_r, Href; congruence ].

Lemma socket_opens_fresh i s :
  handles_fresh s → handles_fresh (socket_opens props i s).
Proof.
  intros Hfresh. unfold socket_opens.
  destruct (sockets s !! i) as [k|] eqn:Hi; [|done].
  destruct (readyState k) eqn:Hr; try done.
  destruct Hfresh as (Hsock & Href & Htimer).
  assert (∀ i k, sockets s !! i = Some k → i < next_socket s) as Hsock'
    by (intros i' k' Hi'; apply Hsock; eauto).
  unfold onopen, setInterval, set_readyState, handles_fresh.
  match goal with
  | |- context [foldl ?f ?s0 ?l] =>
      destruct (resubscribe_spec i l s0 (with_readyState OPEN k))
        as (k' & -> & _)
  end.
  { destruct (0 <? heartbeatInterval props)%Z; simpl; apply lookup_insert_eq. }
  { done. }
  destruct (0 <? heartbeatInterval props)%Z; simpl;
    fresh_cases Hsock Hsock' Href Htimer.
Qed.

Lemma step_fresh s e :
  handles_fresh s → handles_fresh (step props throws s e).
Proof.
  intros Hfresh.
  destruct e; simpl; try by apply socket_opens_fresh.
  all: destruct Hfresh as (Hsock & Href & Htimer); unfold handles_fresh.
  all: assert (∀ i k, sockets s !! i = Some k → i < next_socket s) as Hsock'
    by (intros i' k' Hi'; apply Hsock; eauto).
  all: try (rewrite (f_equal sockets (socket_message_only_observations _ _ _)
                      : sockets (socket_message _ _ _ _) = sockets s),
              (f_equal socketRef (socket_message_only_observations _ _ _)
                      : socketRef (socket_message _ _ _ _) = socketRef s),
              (f_equal next_socket (socket_message_only_observations _ _ _)
                      : next_socket (socket_message _ _ _ _) = next_socket s),
              (f_equal timers (socket_message_only_observations _ _ _)
                      : timers (socket_message _ _ _ _) = timers s),
              (f_equal next_timer (socket_message_only_observations _ _ _)
                      : next_timer (socket_message _ _ _ _) = next_timer s);
            done).
  all: unfold_provider; repeat (case_match; simpl in * ); auto.
  all: fresh_cases Hsock Hsock' Href Htimer.
Qed.

Lemma fresh_invariant events :
  handles_fresh (run props throws events initial).
Proof.
  apply (run_invariant handles_fresh).
  - repeat split; simpl; intros i Hi; try done;
      rewrite lookup_empty in Hi; by destruct Hi.
  - intros s e. apply step_fresh.
Qed.

End Invariants.

(** ** Operation by operation *)

(** The resubscription loop on an open socket: one subscribe frame for
    each captured subscription, in order. *)
Lemma resubscribe_sent i captured s k :
  sockets s !! i = Some k →
  readyState k = OPEN →
  foldl (λ s sub, socket_send i (subscribe_frame (channel sub)) s) s captured
  = set_sockets
      (<[i := {| readyState := OPEN;
                 closure_subscriptions := closure_subscriptions k;
                 sent := sent k ++ map (λ sub, subscribe_frame (channel sub)) captured |}]>
         (sockets s))
      (next_socket s) s.
Proof.
  revert s k. induction captured as [|sub rest IH]; intros s k Hsock Hopen.
  - simpl. rewrite app_nil_r, <- Hopen.
    replace {| readyState := readyState k;
               closure_subscriptions := closure_subscriptions k;
               sent := sent k |} with k by (by destruct k).
    rewrite insert_id by done. by destruct s.
  - simpl. unfold socket_send at 2. rewrite Hsock, Hopen. simpl.
    rewrite (IH _ (with_sent (subscribe_frame (channel sub)) k)).
    + simpl. by rewrite insert_insert_eq, <- app_assoc.
    + simpl. apply lookup_insert_eq.
    + done.
Qed.

Lemma disconnect_fields s :
  status (disconnect s) = disconnected
  ∧ isManualDisconnect (disconnect s) = true
  ∧ socketRef (disconnect s) = None
  ∧ reconnectAttemptsRef (disconnect s) = reconnectAttemptsRef s
  ∧ reconnectTimerRef (disconnect s) = reconnectTimerRef s
  ∧ heartbeatTimerRef (disconnect s) = heartbeatTimerRef s
  ∧ subscriptions (disconnect s) = subscriptions s
  ∧ next_socket (disconnect s) = next_socket s
  ∧ next_timer (disconnect s) = next_timer s
  ∧ sockets (disconnect s) =
      from_option (λ i, sockets (socket_close i s)) (sockets s) (socketRef s)
  ∧ timers (disconnect s) =
      from_option (λ h, delete h) id (reconnectTimerRef s)
        (from_option (λ h, delete h) id (heartbeatTimerRef s) (timers s)).
Proof.
  unfold disconnect, clearInterval, clearTimeout. simpl.
  destruct (heartbeatTimerRef s) eqn:Hhb; simpl;
    destruct (reconnectTimerRef s) eqn:Hrc; simpl;
    destruct (socketRef s) eqn:Href; simpl;
    try (match goal with
         | |- context [socket_close ?n ?x] =>
             rewrite (socket_close_only_sockets n x)
         end);
    simpl; rewrite ?Hhb, ?Hrc, ?Href; repeat split; try done;
    unfold socket_close; simpl; repeat case_match; done.
Qed.

(** X1: the open event of a connecting socket makes it open and sends
    on it one subscribe frame (the object with [type] "subscribe" and
    [channel] the topic's name) for each subscription its [connect]
    captured, in registration order (so a topic with two callbacks is
    subscribed twice); the other sockets are left as they are; and a
    heartbeat interval is started, with its handle in
    [heartbeatTimerRef], exactly when [heartbeatInterval] is positive. *)
Theorem open_resubscribes_and_starts_heartbeat props i k s :
  sockets s !! i = Some k →
  readyState k = CONNECTING →
  let s' := socket_opens props i s in
  sockets s' =
    <[i := {| readyState := OPEN;
              closure_subscriptions := closure_subscriptions k;
              sent := sent k
                      ++ map (λ sub, JObj [("type", JStr "subscribe");
                                           ("channel",
                                            JStr (channel_name (channel sub)))])
                           (closure_subscriptions k) |}]> (sockets s)
  ∧ if (0 <? heartbeatInterval props)%Z
    then heartbeatTimerRef s' = Some (next_timer s)
         ∧ timers s' =
             <[next_timer s := {| task := heartbeat_tick i;
                                  delay := heartbeatInterval props;
                                  repeats := true |}]> (timers s)
    else heartbeatTimerRef s' = heartbeatTimerRef s ∧ timers s' = timers s.
Proof.
  intros Hsock Hconnecting. simpl.
  unfold socket_opens. rewrite Hsock, Hconnecting.
  unfold onopen, setInterval, set_readyState.
  match goal with
  | |- context [foldl ?f ?s0 ?l] =>
      rewrite (resubscribe_sent i l s0 (with_readyState OPEN k))
  end.
  - destruct (0 <? heartbeatInterval props)%Z; simpl;
      by rewrite insert_insert_eq.
  - destruct (0 <? heartbeatInterval props)%Z; simpl; apply lookup_insert_eq.
  - done.
Qed.

Lemma open_resubscribes_and_starts_heartbeat_witness :
  let s := run default_props never_throws
             [call_subscribe prices 1; call_subscribe prices 2;
              call_subscribe security 3; call_connect] initial in
  (sent <$> sockets (socket_opens default_props 0 s) !! 0%nat)
  = Some [JObj [("type", JStr "subscribe"); ("channel", JStr "prices")];
          JObj [("type", JStr "subscribe"); ("channel", JStr "prices")];
          JObj [("type", JStr "subscribe"); ("channel", JStr "security")]]
  ∧ heartbeatTimerRef (socket_opens default_props 0 s) = Some 1%nat.
Proof.
  intros s.
  destruct (open_resubscribes_and_starts_heartbeat default_props 0
              {| readyState := CONNECTING;
                 closure_subscriptions :=
                   [ {| channel := prices; callback := 1 |};
                     {| channel := prices; callback := 2 |};
                     {| channel := security; callback := 3 |} ];
                 sent := [] |} s eq_refl eq_refl) as [Hsockets Hbeat].
  split.
  - rewrite Hsockets. reflexivity.
  - apply Hbeat.
Defined.

(** [reconnect()], and then its timeout. *)
Lemma reconnect_spec props captured s :
  url_valid props = true →
  let s1 := reconnect captured s in
  let s2 := timer_fires props (next_timer s) s1 in
  (status s1 = disconnected
   ∧ isManualDisconnect s1 = true
   ∧ socketRef s1 = None
   ∧ timers s1 !! next_timer s =
       Some {| task := reconnect_connect captured; delay := 100; repeats := false |})
  ∧ (status s2 = connecting
     ∧ isManualDisconnect s2 = false
     ∧ reconnectAttemptsRef s2 = 0%Z
     ∧ socketRef s2 = Some (next_socket s)
     ∧ sockets s2 !! next_socket s =
         Some {| readyState := CONNECTING; closure_subscriptions := captured;
                 sent := [] |}
     ∧ timers s2 !! next_timer s = None).
Proof.
  intros Hurl s1 s2. subst s1 s2. unfold reconnect.
  destruct (disconnect_fields s)
    as (Hstatus & Hmanual & Href & _ & _ & _ & _ & Hnext & Htimer & _ & _).
  revert Hstatus Hmanual Href Hnext Htimer. generalize (disconnect s).
  intros d Hstatus Hmanual Href Hnext Htimer.
  unfold setTimeout. simpl. rewrite Htimer.
  split.
  - repeat split; try done. apply lookup_insert_eq.
  - unfold timer_fires. simpl. rewrite lookup_insert_eq. simpl.
    unfold connect, current_is_open, new_WebSocket. simpl.
    rewrite Href, Hurl, Hnext. simpl. repeat split.
    + apply lookup_insert_eq.
    + apply lookup_delete_eq.
Qed.

Lemma reconnect_connect_fires props captured s :
  url_valid props = true →
  let s2 := timer_fires props (next_timer s) (reconnect captured s) in
  status s2 = connecting
  ∧ isManualDisconnect s2 = false
  ∧ reconnectAttemptsRef s2 = 0%Z
  ∧ socketRef s2 = Some (next_socket s)
  ∧ timers s2 !! next_timer s = None.
Proof.
  intros Hurl. destruct (reconnect_spec props captured s Hurl)
    as (_ & Hstatus & Hmanual & Hzero & Href & _ & Htimer). done.
Qed.

(** X2: [reconnect()] leaves the session manually disconnected with a
    100 ms timeout pending; when that timeout fires, whatever the state
    was before, the counter is 0 again and [connect] has made a new
    transport, which is connecting and holds the values captured by the
    [connect] that [reconnect] was made with. *)
Theorem reconnect_gives_new_transport props captured s :
  url_valid props = true →
  let s1 := reconnect captured s in
  let s2 := timer_fires props (next_timer s) s1 in
  (status s1 = disconnected
   ∧ isManualDisconnect s1 = true
   ∧ socketRef s1 = None
   ∧ timers s1 !! next_timer s =
       Some {| task := reconnect_connect captured; delay := 100; repeats := false |})
  ∧ (status s2 = connecting
     ∧ isManualDisconnect s2 = false
     ∧ reconnectAttemptsRef s2 = 0%Z
     ∧ socketRef s2 = Some (next_socket s)
     ∧ sockets s2 !! next_socket s =
         Some {| readyState := CONNECTING; closure_subscriptions := captured;
                 sent := [] |}
     ∧ timers s2 !! next_timer s = None).
Proof. apply reconnect_spec. Qed.

Lemma reconnect_gives_new_transport_witness :
  let s := consecutive_closes scenario_props 3
             (run scenario_props never_throws [call_connect; open_event 0] initial) in
  let s2 := timer_fires scenario_props (next_timer s) (reconnect [] s) in
  reconnectAttemptsRef s = 2%Z
  ∧ status s2 = connecting ∧ reconnectAttemptsRef s2 = 0%Z.
Proof.
  intros s s2. split; [reflexivity|].
  destruct (reconnect_gives_new_transport scenario_props [] s eq_refl)
    as (_ & Hstatus & _ & Hzero & _).
  by split.
Defined.

(** X3: after [disconnect()], the close event of the transport it
    closed is handled as a manual close: the status is disconnected, the
    counter is unchanged, no timer is added, and the flag stays set. *)
Theorem manual_close_schedules_nothing props i k s :
  socketRef s = Some i →
  sockets s !! i = Some k →
  readyState k ≠ CLOSED →
  let s' := socket_closes props i (disconnect s) in
  status s' = disconnected
  ∧ isManualDisconnect s' = true
  ∧ reconnectAttemptsRef s' = reconnectAttemptsRef s
  ∧ timers s' ⊆ timers s
  ∧ (readyState <$> sockets s' !! i) = Some CLOSED.
Proof.
  intros Href Hsock Hlive.
  destruct (disconnect_fields s)
    as (Hstatus & Hmanual & _ & Hattempts & _ & _ & _ & _ & _ & Hsockets & Htimers).
  rewrite Href in Hsockets. cbn [from_option] in Hsockets.
  assert (∃ k', sockets (disconnect s) !! i = Some k' ∧ readyState k' = CLOSING)
    as (k' & Hk' & Hclosing).
  { rewrite Hsockets. unfold socket_close. rewrite Hsock.
    destruct (readyState k) eqn:Hr; simpl; rewrite ?lookup_insert_eq; eauto.
    done. }
  assert (timers (disconnect s) ⊆ timers s) as Hsub.
  { rewrite Htimers.
    destruct (reconnectTimerRef s), (heartbeatTimerRef s); simpl;
      repeat (etransitivity; [apply delete_subseteq|]); done. }
  clear Hsockets Htimers. intros s'. subst s'.
  revert Hstatus Hmanual Hattempts Hk' Hsub. generalize (disconnect s).
  intros d Hstatus Hmanual Hattempts Hk' Hsub.
  unfold socket_closes. rewrite Hk', Hclosing.
  unfold onclose, set_readyState, clearInterval, setTimeout. simpl.
  destruct (heartbeatTimerRef d); simpl; rewrite Hmanual; simpl;
    rewrite lookup_insert_eq; repeat split; try done.
  etransitivity; [apply delete_subseteq | done].
Qed.

Lemma manual_close_schedules_nothing_witness :
  let s := run default_props never_throws [call_connect; open_event 0] initial in
  let s' := socket_closes default_props 0 (disconnect s) in
  status s' = disconnected ∧ timers s' ⊆ timers s.
Proof.
  intros s s'.
  destruct (manual_close_schedules_nothing default_props 0
              {| readyState := OPEN; closure_subscriptions := []; sent := [] |} s
              eq_refl eq_refl ltac:(discriminate))
    as (Hstatus & _ & _ & Hsub & _).
  by split.
Defined.

(** X4: [isManualDisconnect] belongs to the session, not to a socket.
    When [connect()] is called after [disconnect()] and before the close
    event of the closed transport, that close event is handled as a
    non-manual close: the status becomes disconnected while the new
    transport is still connecting, and with the counter below the bound
    a retry is scheduled and the counter incremented. *)
Theorem close_after_new_connect_is_not_manual props captured i k s :
  url_valid props = true →
  handles_fresh s →
  socketRef s = Some i →
  sockets s !! i = Some k →
  readyState k ≠ CLOSED →
  (reconnectAttemptsRef s < maxReconnectAttempts props)%Z →
  let s' := socket_closes props i (connect props captured (disconnect s)) in
  status s' = disconnected
  ∧ socketRef s' = Some (next_socket s)
  ∧ (readyState <$> sockets s' !! next_socket s) = Some CONNECTING
  ∧ reconnectAttemptsRef s' = (reconnectAttemptsRef s + 1)%Z
  ∧ reconnectTimerRef s' = Some (next_timer s)
  ∧ timers s' !! next_timer s = Some (retry_timer props (closure_subscriptions k)).
Proof.
  intros Hurl (Hfresh & _ & _) Href Hsock Hlive Hbudget s'. subst s'.
  assert (i ≠ next_socket s) as Hne.
  { specialize (Hfresh i). rewrite Hsock in Hfresh.
    specialize (Hfresh ltac:(eauto)). lia. }
  destruct (disconnect_fields s)
    as (_ & _ & Hnone & Hattempts & _ & _ & _ & Hnext & Htimer & Hsockets & _).
  rewrite Href in Hsockets. cbn [from_option] in Hsockets.
  assert (∃ k', sockets (disconnect s) !! i = Some k' ∧ readyState k' = CLOSING
                ∧ closure_subscriptions k' = closure_subscriptions k)
    as (k' & Hk' & Hclosing & Hclosure).
  { rewrite Hsockets. unfold socket_close. rewrite Hsock.
    destruct (readyState k) eqn:Hr; simpl; rewrite ?lookup_insert_eq; eauto.
    done. }
  clear Hsockets.
  revert Hnone Hattempts Hnext Htimer Hk'. generalize (disconnect s).
  intros d Hnone Hattempts Hnext Htimer Hk'.
  unfold connect, current_is_open, new_WebSocket. rewrite Hnone, Hurl. simpl.
  unfold socket_closes. simpl. rewrite Hnext.
  rewrite lookup_insert_ne by done. rewrite Hk', Hclosing.
  unfold onclose, set_readyState, clearInterval, setTimeout. simpl.
  destruct (heartbeatTimerRef d); simpl;
    rewrite Hattempts, Htimer, <- Hclosure, (proj2 (Z.ltb_lt _ _) Hbudget);
    simpl; repeat split;
    rewrite ?lookup_insert_eq; try done;
    by rewrite lookup_insert_ne, lookup_insert_eq by done.
Qed.

Lemma close_after_new_connect_is_not_manual_witness :
  let s := run default_props never_throws [call_connect; open_event 0] initial in
  let s' := socket_closes default_props 0
              (connect default_props [] (disconnect s)) in
  status s' = disconnected
  ∧ (readyState <$> sockets s' !! 1%nat) = Some CONNECTING
  ∧ reconnectAttemptsRef s' = 1%Z.
Proof.
  intros s s'.
  destruct (close_after_new_connect_is_not_manual default_props [] 0
              {| readyState := OPEN; closure_subscriptions := []; sent := [] |} s
              eq_refl (fresh_invariant default_props never_throws
                         [call_connect; open_event 0])
              eq_refl eq_refl ltac:(discriminate) eq_refl)
    as (Hstatus & _ & Hnew & Hattempts & _).
  repeat split; assumption.
Defined.

(** X5: an error event does not close anything: an error event followed
    by the close event of the same socket leaves the session exactly as
    the close event alone does, but for the console. *)
Theorem error_then_close_is_close props i s :
  without_console (socket_closes props i (socket_errors i s))
  = without_console (socket_closes props i s).
Proof.
  unfold socket_errors. destruct (sockets s !! i) as [k|] eqn:Hi; [|done].
  destruct (readyState k) eqn:Hr; try done.
  all: unfold socket_closes, onerror; simpl; rewrite Hi, Hr;
    unfold onclose, set_readyState, clearInterval, setTimeout; simpl;
    destruct (heartbeatTimerRef s); simpl;
    destruct (negb (isManualDisconnect s)
              && (reconnectAttemptsRef s <? maxReconnectAttempts props)%Z);
    reflexivity.
Qed.

(** X6: a message event changes nothing of the session but the
    observations: status, registry, refs, sockets and timers are as
    before, and the calls made before are still there, first. *)
Theorem message_event_only_adds_observations throws i parsed s :
  without_observations (socket_message throws i parsed s) = without_observations s
  ∧ take (length (calls s)) (calls (socket_message throws i parsed s)) = calls s.
Proof.
  split; [apply socket_message_only_observations|].
  by rewrite socket_message_calls, take_app_length.
Qed.

Lemma absent_filter_same c cb (l : list Subscription) :
  {| channel := c; callback := cb |} ∉ l →
  filter (λ x, ¬ same_subscription c cb x) l = l.
Proof.
  induction l as [|x l IH]; intros Hnot; [done|].
  apply not_elem_of_cons in Hnot as [Hx Hl].
  rewrite filter_cons_True; [by rewrite IH|].
  rewrite same_subscription_eq. congruence.
Qed.

(** X7: the effect of [useWebSocketChannel] and its cleanup.  Disabled,
    the effect does nothing and returns no cleanup.  Enabled, for a
    (topic, callback) pair that is not registered yet, running the
    effect and then its cleanup leaves the registry as it was; with the
    transport not open the whole state is as it was, and with it open
    the socket has been sent a subscribe and then an unsubscribe frame
    for the topic. *)
Theorem channel_hook_round_trip c cb s :
  {| channel := c; callback := cb |} ∉ subscriptions s →
  let mounted := useWebSocketChannel c cb true s in
  let unmounted := cleanup mounted.2 mounted.1 in
  useWebSocketChannel c cb false s = (s, None)
  ∧ subscriptions mounted.1 = subscriptions s ++ [ {| channel := c; callback := cb |} ]
  ∧ subscriptions unmounted = subscriptions s
  ∧ (current_is_open s = false → unmounted = s)
  ∧ (∀ i k, socketRef s = Some i → sockets s !! i = Some k → readyState k = OPEN →
       sockets unmounted =
         <[i := {| readyState := OPEN;
                   closure_subscriptions := closure_subscriptions k;
                   sent := sent k
                           ++ [JObj [("type", JStr "subscribe");
                                     ("channel", JStr (channel_name c))];
                               JObj [("type", JStr "unsubscribe");
                                     ("channel", JStr (channel_name c))]] |}]>
           (sockets s)).
Proof.
  intros Hnew mounted unmounted.
  assert (¬ Exists (same_subscription c cb) (subscriptions s)) as Hnone.
  { rewrite Exists_exists. intros (x & Hx & Hsame).
    apply same_subscription_eq in Hsame. by subst. }
  assert (filter (λ x, ¬ same_subscription c cb x)
            (subscriptions s ++ [ {| channel := c; callback := cb |} ])
          = subscriptions s) as Hfilter.
  { rewrite filter_app, absent_filter_same by done.
    rewrite filter_cons_False, app_nil_r; [done|].
    intros Hneg. apply Hneg. by apply same_subscription_eq. }
  split; [done|].
  subst mounted unmounted. unfold useWebSocketChannel, subscribe, cleanup.
  cbn [negb fst snd]. unfold setSubscriptions at 1 2. cbn [subscriptions].
  rewrite (bool_decide_eq_false_2 _ Hnone).
  destruct (current_is_open s) eqn:Hopen.
  - unfold current_is_open, socket_is_open in Hopen.
    destruct (socketRef s) as [i|] eqn:Href; [|done].
    destruct (sockets s !! i) as [k|] eqn:Hi; [|done].
    apply bool_decide_eq_true in Hopen.
    unfold send, current_is_open, socket_is_open, socket_send. simpl.
    repeat (progress (rewrite ?Href, ?Hi, ?Hopen, ?lookup_insert_eq; simpl)).
    rewrite ?(bool_decide_eq_false_2 _ Hnone), ?Hfilter. repeat split; try done.
    intros i' k' [= <-] Hk' _. rewrite Hi in Hk'. injection Hk' as <-.
    rewrite insert_insert_eq. unfold with_sent. simpl.
    by rewrite Hopen, <- app_assoc.
  - unfold send, current_is_open, socket_is_open in *. simpl.
    rewrite ?Hopen. simpl. rewrite ?Hopen. simpl.
    rewrite ?(bool_decide_eq_false_2 _ Hnone), ?Hfilter.
    repeat split; try done.
    + intros _. unfold setSubscriptions. simpl.
      rewrite ?(bool_decide_eq_false_2 _ Hnone), ?Hfilter. by destruct s.
    + intros i k Href Hi Hk. rewrite Href, Hi, Hk in Hopen. done.
Qed.

Lemma channel_hook_round_trip_witness :
  let s := run default_props never_throws
             [call_subscribe prices 1; call_connect; open_event 0] initial in
  let mounted := useLiveTransactions 7 s in
  subscriptions (cleanup mounted.2 mounted.1) = subscriptions s.
Proof.
  intros s mounted.
  apply (channel_hook_round_trip transactions 7 s).
  vm_compute. intros Hin. apply list_elem_of_singleton in Hin. discriminate.
Defined.

(** X8: the set of topics is closed.  A message that is not a pong and
    whose [channel] is not the name of one of the six topics reaches no
    subscriber through the channel routing: only the callbacks of the
    [system] topic are called, with the whole message. *)
Theorem unknown_channel_reaches_system_only throws captured message ty ch s :
  get_prop message "type" = Some ty →
  strict_eq_str ty "pong" = false →
  get_prop message "channel" = Some ch →
  (∀ c, ch ≠ JStr (channel_name c)) →
  calls (onmessage throws captured (Some message) s)
  = calls s ++ until_throw throws (with_arg message (system_targets captured)).
Proof.
  intros Hty Hpong Hch Hunknown.
  rewrite onmessage_calls. unfold dispatched. simpl. rewrite Hty. simpl.
  rewrite Hpong. unfold targets. rewrite Hch.
  destruct (get_prop_total _ _ "data" _ Hty) as [data ->].
  assert (channel_targets captured ch = []) as ->.
  { unfold channel_targets. induction captured as [|sub rest IH]; [done|].
    rewrite filter_cons_False; [done|].
    unfold strict_eq_str. destruct ch; simpl; try (by intros []).
    rewrite bool_decide_spec. intros ->. by apply (Hunknown (channel sub)). }
  by destruct (truthy ch).
Qed.

Lemma unknown_channel_reaches_system_only_witness :
  calls (onmessage never_throws
           [ {| channel := prices; callback := 1 |};
             {| channel := system; callback := 2 |} ]
           (Some (frame "tick" "orders" (JNum 3))) initial)
  = calls initial
    ++ until_throw never_throws
         (with_arg (frame "tick" "orders" (JNum 3))
            (system_targets [ {| channel := prices; callback := 1 |};
                              {| channel := system; callback := 2 |} ])).
Proof.
  apply (unknown_channel_reaches_system_only never_throws _ _ (JStr "tick")
           (JStr "orders")); try reflexivity.
  intros c. by destruct c.
Defined.

(** X9: when no callback throws, the handler of a socket calls, for a
    message on topic [c] that is not a pong, first the callbacks it holds
    for [c], in registration order, each with [message.data], then those
    it holds for [system], each with the whole message; it logs nothing
    and changes nothing else. *)
Theorem dispatch_in_registration_order throws captured message ty c data s :
  get_prop message "type" = Some ty →
  strict_eq_str ty "pong" = false →
  get_prop message "channel" = Some (JStr (channel_name c)) →
  get_prop message "data" = Some data →
  (∀ sub arg, sub ∈ captured → throws (callback sub) arg = false) →
  onmessage throws captured (Some message) s
  = set_calls
      (calls s
       ++ with_arg data (filter (λ sub, channel sub = c) captured)
       ++ with_arg message (filter (λ sub, channel sub = system) captured)) s.
Proof.
  intros Hty Hpong Hch Hdata Hquiet.
  rewrite (onmessage_dispatch _ _ _ _ _ Hty Hpong). simpl.
  unfold targets. rewrite Hch, Hdata, channel_name_truthy, channel_targets_by_name.
  fold (system_targets captured).
  assert (∀ arg l, (∀ sub, sub ∈ l → sub ∈ captured) →
                   some_throw throws (with_arg arg l) = false) as Hnone.
  { intros arg l Hl. apply quiet_targets, Forall_forall. intros sub Hsub.
    apply Hquiet. by apply Hl. }
  assert (some_throw throws
            (with_arg data (filter (λ sub, channel sub = c) captured)
             ++ with_arg message (system_targets captured)) = false) as Hall.
  { rewrite some_throw_app, !Hnone; [done| |];
      intros sub Hsub; by apply list_elem_of_filter in Hsub as [_ ?]. }
  by rewrite Hall, (until_throw_none _ _ Hall).
Qed.

Lemma dispatch_in_registration_order_witness :
  onmessage never_throws
    [ {| channel := system; callback := 9 |};
      {| channel := prices; callback := 2 |};
      {| channel := prices; callback := 1 |} ]
    (Some (frame "price" "prices" (JNum 5))) initial
  = set_calls
      (calls initial
       ++ with_arg (JNum 5)
            (filter (λ sub, channel sub = prices)
               [ {| channel := system; callback := 9 |};
                 {| channel := prices; callback := 2 |};
                 {| channel := prices; callback := 1 |} ])
       ++ with_arg (frame "price" "prices" (JNum 5))
            (filter (λ sub, channel sub = system)
               [ {| channel := system; callback := 9 |};
                 {| channel := prices; callback := 2 |};
                 {| channel := prices; callback := 1 |} ])) initial.
Proof.
  apply (dispatch_in_registration_order never_throws _ _ (JStr "price") prices
           (JNum 5)); reflexivity.
Defined.

Section StaysDisconnected.

Variable props : Props.
Variable throws : Callback → JsValue → bool.

(** In a silent session the socket of [socketRef], if any, is not
    open. *)
Lemma silent_not_open s : silent s → current_is_open s = false.
Proof.
  intros (_ & _ & Hclosed). unfold current_is_open, socket_is_open.
  destruct (socketRef s) as [i|]; [|done].
  destruct (sockets s !! i) as [k|] eqn:Hi; [|done].
  by destruct (Hclosed i k Hi) as [-> | ->].
Qed.

(** In a silent session, an event that does not call [connect] sends no
    frame, makes no transport, calls no callback, and leaves the session
    silent. *)
Lemma silent_stays s e :
  silent s →
  keeps_disconnected e = true →
  silent (step props throws s e)
  ∧ sent <$> sockets (step props throws s e) = sent <$> sockets s
  ∧ next_socket (step props throws s e) = next_socket s
  ∧ calls (step props throws s e) = calls s.
Proof.
  intros Hsilent He.
  pose proof (silent_not_open s Hsilent) as Hopen.
  destruct (from_browser e) eqn:Hbrowser.
  - destruct (silent_step props throws s e Hsilent Hbrowser) as (? & ? & ?).
    split; [done|]. split; [done|]. split; [done|].
    destruct Hsilent as (Hmanual & Htimers & Hclosed).
    destruct e; try discriminate Hbrowser; simpl.
    + unfold socket_opens. destruct (sockets s !! socket) as [k|] eqn:Hi; [|done].
      by destruct (Hclosed _ _ Hi) as [-> | ->].
    + unfold socket_message. destruct (sockets s !! socket) as [k|] eqn:Hi; [|done].
      by destruct (Hclosed _ _ Hi) as [-> | ->].
    + unfold socket_errors. repeat case_match; done.
    + unfold socket_closes. destruct (sockets s !! socket) as [k|] eqn:Hi; [|done].
      destruct (readyState k); try done;
        unfold onclose, set_readyState, clearInterval; simpl;
        destruct (heartbeatTimerRef s); simpl; by rewrite Hmanual.
    + unfold timer_fires. by rewrite Htimers, lookup_empty.
  - destruct Hsilent as (Hmanual & Htimers & Hclosed).
    assert (∀ i, socket_close i s = s) as Hclose.
    { intros i. unfold socket_close.
      destruct (sockets s !! i) as [k|] eqn:Hi; [|done].
      by destruct (Hclosed _ _ Hi) as [-> | ->]. }
    assert (silent (disconnect s)
            ∧ sent <$> sockets (disconnect s) = sent <$> sockets s
            ∧ next_socket (disconnect s) = next_socket s
            ∧ calls (disconnect s) = calls s) as Hdisconnect.
    { destruct (disconnect_fields s)
        as (_ & Hmanual' & _ & _ & _ & _ & _ & Hnext & _ & Hsockets & Htimers').
      assert (sockets (disconnect s) = sockets s) as Hsame.
      { rewrite Hsockets. destruct (socketRef s); simpl; by rewrite ?Hclose. }
      split; [|split; [|split]].
      - split; [done|]. split; [|by rewrite Hsame].
        rewrite Htimers', Htimers.
        destruct (heartbeatTimerRef s), (reconnectTimerRef s); simpl;
          by rewrite ?delete_empty.
      - by rewrite Hsame.
      - done.
      - unfold disconnect, clearInterval, clearTimeout. simpl.
        destruct (heartbeatTimerRef s), (reconnectTimerRef s), (socketRef s);
          simpl; unfold socket_close; repeat case_match; done. }
    assert (∀ f, silent (setSubscriptions f s)) as Hregistry by done.
    destruct e; try discriminate He; try discriminate Hbrowser; simpl;
      try exact Hdisconnect.
    + unfold send. by rewrite Hopen.
    + unfold subscribe. cbn [fst].
      change (current_is_open (setSubscriptions ?f s)) with (current_is_open s).
      by rewrite Hopen.
    + unfold unsubscribe.
      change (current_is_open (setSubscriptions ?f s)) with (current_is_open s).
      by rewrite Hopen.
    + unfold subscribe. cbn [snd].
      change (current_is_open (setSubscriptions ?f s)) with (current_is_open s).
      by rewrite Hopen.
Qed.

Lemma silent_run events s :
  silent s →
  forallb keeps_disconnected events = true →
  silent (run props throws events s)
  ∧ sent <$> sockets (run props throws events s) = sent <$> sockets s
  ∧ next_socket (run props throws events s) = next_socket s
  ∧ calls (run props throws events s) = calls s.
Proof.
  revert s. induction events as [|e rest IH]; intros s Hsilent Hevents; [done|].
  simpl in Hevents. apply andb_prop in Hevents as [He Hrest].
  destruct (silent_stays s e Hsilent He) as (Hsilent' & Hsent & Hnext & Hcalls).
  simpl. rewrite <- Hsent, <- Hnext, <- Hcalls. by apply IH.
Qed.

(** X10: [disconnect()] ends a session that has one transport, until
    [connect] is called again.  When every pending timer is held by one
    of the two timer refs and every socket that is connecting or open is
    the one in [socketRef], then after [disconnect()], whatever the
    application calls other than [connect] and [reconnect] ([send],
    [subscribe], [unsubscribe], [disconnect]) and whatever the browser
    delivers, no frame is sent on any socket, no socket is made and no
    callback is called; [send] drops its message with a warning, and
    [subscribe] and [unsubscribe] only write the registry. *)
Theorem nothing_is_sent_after_disconnect events s :
  single_transport s →
  forallb keeps_disconnected events = true →
  let s' := run props throws events (disconnect s) in
  sent <$> sockets s' = sent <$> sockets s
  ∧ next_socket s' = next_socket s
  ∧ calls s' = calls s
  ∧ (∀ message,
       send message s'
       = print (console_warn "WebSocket is not connected. Message not sent:") s')
  ∧ (∀ c cb,
       (subscribe c cb s').1
       = setSubscriptions
           (λ prev, if bool_decide (Exists (same_subscription c cb) prev)
                    then prev else prev ++ [ {| channel := c; callback := cb |} ]) s'
       ∧ unsubscribe c cb s'
         = setSubscriptions (filter (λ x, ¬ same_subscription c cb x)) s').
Proof.
  intros Hsingle Hevents. simpl.
  destruct (disconnect_silent s Hsingle) as (Hsilent & Hsent & Hnext).
  assert (calls (disconnect s) = calls s) as Hcalls.
  { unfold disconnect, clearInterval, clearTimeout. simpl.
    destruct (heartbeatTimerRef s), (reconnectTimerRef s), (socketRef s);
      simpl; unfold socket_close; repeat case_match; done. }
  destruct (silent_run events (disconnect s) Hsilent Hevents)
    as (Hsilent' & Hsent' & Hnext' & Hcalls').
  pose proof (silent_not_open _ Hsilent') as Hopen.
  rewrite Hsent', Hnext', Hcalls'. repeat split; try done.
  - intros message. unfold send. by rewrite Hopen.
  - unfold subscribe. cbn [fst].
    change (current_is_open (setSubscriptions ?f ?x)) with (current_is_open x).
    by rewrite Hopen.
  - unfold unsubscribe.
    change (current_is_open (setSubscriptions ?f ?x)) with (current_is_open x).
    by rewrite Hopen.
Qed.

End StaysDisconnected.

Lemma nothing_is_sent_after_disconnect_witness :
  let s := run default_props never_throws
             [call_subscribe prices 3; call_connect; open_event 0] initial in
  let s' := run default_props never_throws
              [call_send (JStr "hello"); call_subscribe prices 7;
               message_event 0 (Some (frame "tick" "prices" (JNum 1)));
               timer_event 1; call_unsubscribe prices 3; close_event 0;
               timer_event 2]
              (disconnect s) in
  (sent <$> sockets s') !! 0%nat
  = Some [JObj [("type", JStr "subscribe"); ("channel", JStr "prices")]]
  ∧ next_socket s' = 1%nat
  ∧ calls s' = [].
Proof.
  intros s s'.
  destruct (nothing_is_sent_after_disconnect default_props never_throws
              [call_send (JStr "hello"); call_subscribe prices 7;
               message_event 0 (Some (frame "tick" "prices" (JNum 1)));
               timer_event 1; call_unsubscribe prices 3; close_event 0;
               timer_event 2] s)
    as (Hsent & Hnext & Hcalls & _).
  - split.
    + intros h Hh. left.
      destruct (decide (h = 1%nat)) as [->|Hne]; [reflexivity|].
      replace (timers s)
        with (<[1%nat := {| task := heartbeat_tick 0; delay := 30000;
                            repeats := true |}]> (∅ : gmap nat Timer))
        in Hh by (vm_compute; reflexivity).
      rewrite lookup_insert_ne, lookup_empty in Hh by done.
      by destruct Hh.
    + intros i k Hk. left.
      destruct (decide (i = 0%nat)) as [->|Hne]; [reflexivity|].
      replace (sockets s)
        with (<[0%nat := {| readyState := OPEN;
                            closure_subscriptions :=
                              [ {| channel := prices; callback := 3 |} ];
                            sent := [subscribe_frame prices] |}]>
                (∅ : gmap nat Socket))
        in Hk by (vm_compute; reflexivity).
      rewrite lookup_insert_ne, lookup_empty in Hk by done.
      done.
  - reflexivity.
  - split; [|split].
    + unfold s'. rewrite Hsent. reflexivity.
    + exact Hnext.
    + exact Hcalls.
Defined.

(** ** In every state the provider reaches *)

(** X11: in every state the provider reaches, the reconnect counter is
    at least 0 and at most [maxReconnectAttempts] (at most 0 when that
    bound is negative). *)
Theorem reconnect_counter_within_budget props throws events :
  let s := run props throws events initial in
  (0 ≤ reconnectAttemptsRef s)%Z
  ∧ (reconnectAttemptsRef s ≤ Z.max 0 (maxReconnectAttempts props))%Z.
Proof. apply attempts_invariant. Qed.

(** X12: the status never rests on disconnecting: [disconnect] moves on
    to disconnected before it returns, and nothing else sets it.  So the
    status widget, which has no text of its own for disconnecting, never
    shows Unknown. *)
Theorem status_is_never_disconnecting props throws events :
  let s := run props throws events initial in
  status s ≠ disconnecting
  ∧ WebSocketStatusWidget.getStatusText (status s) ≠ "Unknown".
Proof.
  simpl. pose proof (status_invariant props throws events) as Hstatus.
  split; [done|]. by destruct (status (run props throws events initial)).
Qed.

(** X13: in every state the provider reaches, a pending timer is a
    heartbeat (repeating, every [heartbeatInterval], which is then
    positive), a retry (once, after [reconnectInterval]: the same delay
    for every attempt) or the timeout of [reconnect] (once, after 100
    ms).  With [heartbeatInterval] at 0 or below no heartbeat is ever
    pending. *)
Theorem pending_timers_have_provider_shapes props throws events h tm :
  timers (run props throws events initial) !! h = Some tm →
  provider_timer props tm
  ∧ ((heartbeatInterval props ≤ 0)%Z → calls_connect tm = true).
Proof.
  intros Htimer. pose proof (timers_invariant props throws events h tm Htimer) as Hshape.
  split; [done|]. intros Hoff. unfold provider_timer, calls_connect in *.
  destruct (task tm); [lia | done | done].
Qed.

Lemma pending_timers_have_provider_shapes_witness :
  provider_timer scenario_props
    {| task := retry_connect []; delay := 100; repeats := false |}.
Proof.
  apply (pending_timers_have_provider_shapes scenario_props never_throws
           [call_connect; open_event 0; close_event 0] 2%nat).
  reflexivity.
Defined.

(** X14: with a URL that [new WebSocket] refuses, no transport is ever
    made: in every state the provider reaches there is no socket,
    [socketRef] is empty and the status is disconnected or error; and
    every [connect] ends in status error. *)
Theorem refused_url_never_connects props throws events :
  url_valid props = false →
  let s := run props throws events initial in
  sockets s = ∅
  ∧ socketRef s = None
  ∧ (status s = disconnected ∨ status s = error)
  ∧ ∀ captured, status (connect props captured s) = error.
Proof.
  intros Hurl.
  assert (let s := run props throws events initial in
          sockets s = ∅ ∧ socketRef s = None
          ∧ (status s = disconnected ∨ status s = error)) as Hinv.
  { apply (run_invariant props throws
             (λ s, sockets s = ∅ ∧ socketRef s = None
                   ∧ (status s = disconnected ∨ status s = error))).
    - simpl. auto.
    - intros s e Hs. by apply step_invalid_url. }
  simpl in *. destruct Hinv as (Hsockets & Href & Hstatus).
  repeat split; try done.
  intros captured. unfold connect, current_is_open. by rewrite Href, Hurl.
Qed.

Lemma refused_url_never_connects_witness :
  let props := {| url_valid := false; autoConnect := true;
                  reconnectInterval := 3000; maxReconnectAttempts := 5;
                  heartbeatInterval := 30000 |} in
  let s := run props never_throws [mount; call_reconnect; timer_event 1] initial in
  sockets s = ∅ ∧ socketRef s = None
  ∧ (status s = disconnected ∨ status s = error)
  ∧ ∀ captured, status (connect props captured s) = error.
Proof.
  intros props s.
  apply (refused_url_never_connects props never_throws
           [mount; call_reconnect; timer_event 1]).
  reflexivity.
Defined.

(** X15: once the retries are over the status widget offers the
    Reconnect button; [reconnect()] and its timeout then bring the
    session to connecting, on a new transport and with the counter at 0,
    and the button is gone. *)
Theorem reconnect_button_after_retries props captured a s N :
  url_valid props = true →
  episode_start captured a s →
  (1 ≤ N)%nat →
  (maxReconnectAttempts props < a + Z.of_nat N)%Z →
  let over := consecutive_closes props N s in
  let again := timer_fires props (next_timer over) (reconnect captured over) in
  WebSocketStatusWidget.showReconnect (status over) = true
  ∧ WebSocketStatusWidget.showReconnect (status again) = false
  ∧ reconnectAttemptsRef again = 0%Z
  ∧ socketRef again = Some (next_socket over).
Proof.
  intros Hurl Hstart HN Hgt over again.
  pose proof (consecutive_closes_spec props Hurl captured a s N Hstart HN) as Hspec.
  rewrite (proj2 (Z.leb_gt _ _)) in Hspec by lia.
  destruct Hspec as (Hstatus & _).
  destruct (reconnect_connect_fires props captured over Hurl)
    as (Hstatus' & _ & Hzero & Href & _).
  fold again in Hstatus', Hzero, Href.
  subst over. rewrite Hstatus, Hstatus'. done.
Qed.

Lemma reconnect_button_after_retries_witness :
  let s := run scenario_props never_throws [call_connect; open_event 0] initial in
  let over := consecutive_closes scenario_props 3 s in
  let again := timer_fires scenario_props (next_timer over) (reconnect [] over) in
  WebSocketStatusWidget.showReconnect (status over) = true
  ∧ WebSocketStatusWidget.showReconnect (status again) = false
  ∧ reconnectAttemptsRef again = 0%Z
  ∧ socketRef again = Some (next_socket over).
Proof.
  intros s over again.
  apply (reconnect_button_after_retries scenario_props [] 0%Z s 3 eq_refl);
    [|lia|reflexivity].
  repeat split; try reflexivity.
  exists 0%nat, {| readyState := OPEN; closure_subscriptions := []; sent := [] |}.
  repeat split; try reflexivity. discriminate.
Defined.

(** X16: in every state the provider reaches, the registry holds no
    (topic, callback) pair twice. *)
Theorem registry_has_no_duplicates props throws events :
  NoDup (subscriptions (run props throws events initial)).
Proof. apply run_NoDup. constructor. Qed.

(** * The notification store *)

Section Notifications.

Import NotificationContext.

Lemma unread_mark_read (l : list Notification) :
  filter (λ n, read n = false) (map mark_read l) = [].
Proof.
  induction l as [|n l IH]; [done|].
  simpl. rewrite filter_cons_False; [done|]. simpl. done.
Qed.

(** X17: an accepted notification is put first, unread, with the id and
    time it was given; the list is cut to its first 100 entries, so it
    never holds more than 100 whatever it held before, and the
    notifications pushed beyond the 100th are dropped. *)
Theorem addNotification_puts_first_and_caps browser new_id now input st :
  enabled (preferences st) = true →
  includes (mutedTypes (preferences st)) (in_type input) = false →
  let result := addNotification browser new_id now input st in
  ∃ added,
    result.2 = Some added
    ∧ id added = new_id ∧ timestamp added = now ∧ read added = false
    ∧ type added = in_type input ∧ priority added = in_priority input
    ∧ notifications result.1 = added :: take 99 (notifications st)
    ∧ length (notifications result.1) = min 100 (S (length (notifications st)))
    ∧ unreadCount result.1
      = S (length (filter (λ n, read n = false) (take 99 (notifications st)))).
Proof.
  intros Henabled Hmuted. unfold addNotification.
  rewrite Henabled, Hmuted. cbn [negb fst snd notifications].
  change (take MAX_NOTIFICATIONS (?x :: ?l)) with (x :: take 99 l).
  eexists. repeat split.
  cbn [length]. rewrite length_take. lia.
Qed.

Lemma addNotification_puts_first_and_caps_witness :
  ∃ added,
    (addNotification {| has_Notification := true; permission := granted |}
       "1-0.5" 1 {| in_type := JStr "info"; in_title := JStr "t";
                    in_message := JStr "m"; in_priority := JStr "low";
                    in_actionUrl := JUndefined; in_actionLabel := JUndefined;
                    in_metadata := JUndefined |}
       {| notifications := []; preferences := DEFAULT_PREFERENCES;
          desktop := [] |}).2 = Some added
    ∧ id added = "1-0.5".
Proof.
  destruct (addNotification_puts_first_and_caps
              {| has_Notification := true; permission := granted |}
              "1-0.5" 1 {| in_type := JStr "info"; in_title := JStr "t";
                           in_message := JStr "m"; in_priority := JStr "low";
                           in_actionUrl := JUndefined;
                           in_actionLabel := JUndefined;
                           in_metadata := JUndefined |}
              {| notifications := []; preferences := DEFAULT_PREFERENCES;
                 desktop := [] |} eq_refl eq_refl)
    as (added & Hadded & Hid & _).
  exists added. by split.
Defined.

(** X18: [addNotification] consults only three of the preferences:
    [enabled], [mutedTypes] and [showDesktopNotifications].  Two stores
    that agree on these and on the list get the same list, the same
    requests to the browser and the same result: [minPriority],
    [showToasts] and [soundEnabled] change nothing, so a notification of
    low priority is added even when [minPriority] is critical. *)
Theorem addNotification_ignores_minPriority browser new_id now input st st' :
  notifications st = notifications st' →
  desktop st = desktop st' →
  enabled (preferences st) = enabled (preferences st') →
  mutedTypes (preferences st) = mutedTypes (preferences st') →
  showDesktopNotifications (preferences st)
  = showDesktopNotifications (preferences st') →
  let r := addNotification browser new_id now input st in
  let r' := addNotification browser new_id now input st' in
  notifications r.1 = notifications r'.1
  ∧ desktop r.1 = desktop r'.1
  ∧ r.2 = r'.2.
Proof.
  intros Hlist Hdesktop Henabled Hmuted Hshow. unfold addNotification.
  rewrite <- Henabled, <- Hmuted, <- Hshow, <- Hlist, <- Hdesktop.
  destruct (enabled (preferences st)); simpl; [|by rewrite Hlist, Hdesktop].
  destruct (includes (mutedTypes (preferences st)) (in_type input));
    simpl; [by rewrite Hlist, Hdesktop|done].
Qed.

Lemma addNotification_ignores_minPriority_witness :
  let input := {| in_type := JStr "info"; in_title := JStr "t";
                  in_message := JStr "m"; in_priority := JStr "low";
                  in_actionUrl := JUndefined; in_actionLabel := JUndefined;
                  in_metadata := JUndefined |} in
  let strict := {| enabled := true; showDesktopNotifications := false;
                   showToasts := false; soundEnabled := true;
                   minPriority := "critical"; mutedTypes := [] |} in
  let browser := {| has_Notification := true; permission := granted |} in
  notifications
    (addNotification browser "1-0.5" 1 input
       {| notifications := []; preferences := DEFAULT_PREFERENCES;
          desktop := [] |}).1
  = notifications
      (addNotification browser "1-0.5" 1 input
         {| notifications := []; preferences := strict; desktop := [] |}).1.
Proof.
  intros input strict browser.
  apply (addNotification_ignores_minPriority browser "1-0.5" 1 input
           {| notifications := []; preferences := DEFAULT_PREFERENCES;
              desktop := [] |}
           {| notifications := []; preferences := strict; desktop := [] |});
    reflexivity.
Defined.

(** X19: a desktop notification is shown by [addNotification] only when
    the notification was accepted, [showDesktopNotifications] is set,
    the browser has the Notification API and permission is granted; with
    permission denied nothing is asked of the browser at all. *)
Theorem desktop_notification_needs_permission browser new_id now input st :
  let st' := (addNotification browser new_id now input st).1 in
  (∀ title body, shown title body ∈ drop (length (desktop st)) (desktop st') →
     enabled (preferences st) = true
     ∧ showDesktopNotifications (preferences st) = true
     ∧ has_Notification browser = true
     ∧ permission browser = granted
     ∧ title = in_title input ∧ body = in_message input)
  ∧ (permission browser = denied → desktop st' = desktop st).
Proof.
  unfold addNotification.
  destruct (enabled (preferences st)); simpl.
  2: { rewrite drop_all. split; [intros ? ? Hin; by apply elem_of_nil in Hin|done]. }
  destruct (includes (mutedTypes (preferences st)) (in_type input)); simpl.
  { rewrite drop_all. split; [intros ? ? Hin; by apply elem_of_nil in Hin|done]. }
  rewrite drop_app_length.
  destruct (showDesktopNotifications (preferences st)), (has_Notification browser),
    (permission browser); simpl; rewrite ?app_nil_r;
    (split; [intros title body Hin|done]);
    try (by apply elem_of_nil in Hin);
    apply list_elem_of_singleton in Hin; by simplify_eq.
Qed.

Lemma desktop_notification_needs_permission_witness :
  let st := {| notifications := [];
               preferences :=
                 {| enabled := true; showDesktopNotifications := true;
                    showToasts := true; soundEnabled := false;
                    minPriority := "low"; mutedTypes := [] |};
               desktop := [] |} in
  let input := {| in_type := JStr "info"; in_title := JStr "t";
                  in_message := JStr "m"; in_priority := JStr "low";
                  in_actionUrl := JUndefined; in_actionLabel := JUndefined;
                  in_metadata := JUndefined |} in
  desktop (addNotification {| has_Notification := true; permission := denied |}
             "1-0.5" 1 input st).1 = desktop st.
Proof.
  intros st input.
  apply (desktop_notification_needs_permission
           {| has_Notification := true; permission := denied |} "1-0.5" 1 input st).
  reflexivity.
Defined.

(** X20: [markAllAsRead] leaves no unread notification, keeps every
    notification in its place with its id, and doing it twice is doing
    it once. *)
Theorem markAllAsRead_leaves_none_unread st :
  unreadCount (markAllAsRead st) = 0
  ∧ map id (notifications (markAllAsRead st)) = map id (notifications st)
  ∧ markAllAsRead (markAllAsRead st) = markAllAsRead st.
Proof.
  unfold unreadCount, markAllAsRead. simpl. repeat split.
  - by rewrite unread_mark_read.
  - by rewrite map_map.
  - unfold with_notifications. simpl. f_equal. rewrite map_map.
    apply map_ext. by intros [].
Qed.

(** X21: [markAsRead] marks the notifications with the given id and
    leaves every other one as it is; the unread ones afterwards are the
    unread ones with another id; and doing it twice is doing it once. *)
Theorem markAsRead_marks_that_id i st :
  map id (notifications (markAsRead i st)) = map id (notifications st)
  ∧ filter (λ n, id n ≠ i) (notifications (markAsRead i st))
    = filter (λ n, id n ≠ i) (notifications st)
  ∧ filter (λ n, read n = false) (notifications (markAsRead i st))
    = filter (λ n, read n = false) (filter (λ n, id n ≠ i) (notifications st))
  ∧ markAsRead i (markAsRead i st) = markAsRead i st.
Proof.
  unfold markAsRead, with_notifications. simpl.
  repeat split.
  - rewrite map_map. apply map_ext. intros n. by case_bool_decide.
  - induction (notifications st) as [|n l IH]; [done|]. simpl.
    case_bool_decide as Hid.
    + rewrite (filter_cons_False _ (mark_read n)) by (simpl; congruence).
      rewrite (filter_cons_False _ n) by congruence. exact IH.
    + rewrite !filter_cons_True by done. by rewrite IH.
  - induction (notifications st) as [|n l IH]; [done|]. simpl.
    case_bool_decide as Hid.
    + rewrite filter_cons_False by done.
      rewrite (filter_cons_False (λ n, id n ≠ i)) by congruence. exact IH.
    + rewrite (filter_cons_True (λ n, id n ≠ i)) by done.
      rewrite !filter_cons. by rewrite IH.
  - f_equal. rewrite map_map. apply map_ext. intros n.
    destruct (decide (id n = i)) as [Hid|Hid].
    + rewrite (bool_decide_eq_true_2 (id n = i)) by done. simpl.
      by rewrite bool_decide_eq_true_2.
    + rewrite (bool_decide_eq_false_2 (id n = i)) by done.
      by rewrite bool_decide_eq_false_2.
Qed.

(** X22: [deleteNotification] removes every notification with the given
    id and keeps the others in their order; the number of unread ones
    does not grow; and deleting commutes with [markAsRead]. *)
Theorem deleteNotification_removes_that_id i j st :
  (∀ n, n ∈ notifications (deleteNotification i st) ↔
        n ∈ notifications st ∧ id n ≠ i)
  ∧ (unreadCount (deleteNotification i st) ≤ unreadCount st)%nat
  ∧ deleteNotification i (deleteNotification i st) = deleteNotification i st
  ∧ deleteNotification i (markAsRead j st) = markAsRead j (deleteNotification i st).
Proof.
  unfold deleteNotification, markAsRead, unreadCount, with_notifications. simpl.
  split; [|split; [|split]].
  - intros n. rewrite list_elem_of_filter. split; intros [? ?]; done.
  - induction (notifications st) as [|n l IH]; [done|].
    rewrite (filter_cons (λ n, id n ≠ i)), (filter_cons (λ n, read n = false) n l).
    destruct (decide (id n ≠ i)); rewrite ?filter_cons;
      destruct (decide (read n = false)); simpl; lia.
  - f_equal. rewrite list_filter_filter. apply list_filter_iff.
    intros n. split; [by intros [? ?]|done].
  - f_equal. induction (notifications st) as [|n l IH]; [done|]. simpl.
    destruct (decide (id n = i)) as [Hi|Hi].
    + rewrite (filter_cons_False _ n) by congruence.
      rewrite filter_cons_False; [exact IH|].
      case_bool_decide; simpl; congruence.
    + rewrite (filter_cons_True _ n) by done. simpl.
      rewrite filter_cons_True; [by rewrite IH|].
      case_bool_decide; simpl; congruence.
Qed.

Lemma handleLiveNotification_throws browser new_id now data st :
  handleLiveNotification browser new_id now data st = None ↔ nullish data = true.
Proof. unfold handleLiveNotification. by destruct data. Qed.

(** X23: [handleLiveNotification] throws exactly when its argument is
    [null] or [undefined].  On any other argument it adds a
    notification whose type is [data.type], or info when that is absent
    or falsy, and whose priority is [data.priority], or medium when that
    is absent or falsy, provided notifications are enabled and that type
    is not muted; the notification is first in the list and unread. *)
Theorem live_notification_defaults browser new_id now data st :
  (handleLiveNotification browser new_id now data st = None ↔ nullish data = true)
  ∧ ∀ ty pr,
      get_prop data "type" = Some ty →
      get_prop data "priority" = Some pr →
      enabled (preferences st) = true →
      includes (mutedTypes (preferences st)) (or_else ty (JStr "info")) = false →
      ∃ st' added,
        handleLiveNotification browser new_id now data st = Some st'
        ∧ notifications st' = added :: take 99 (notifications st)
        ∧ type added = (if truthy ty then ty else JStr "info")
        ∧ priority added = (if truthy pr then pr else JStr "medium")
        ∧ read added = false ∧ id added = new_id.
Proof.
  split; [apply handleLiveNotification_throws|].
  intros ty pr Hty Hpr Henabled Hmuted. unfold handleLiveNotification.
  rewrite Hty, Hpr. cbn [mbind option_bind].
  destruct (get_prop_total _ _ "title" _ Hty) as [title ->].
  destruct (get_prop_total _ _ "message" _ Hty) as [message ->].
  destruct (get_prop_total _ _ "actionUrl" _ Hty) as [actionUrl ->].
  destruct (get_prop_total _ _ "actionLabel" _ Hty) as [actionLabel ->].
  destruct (get_prop_total _ _ "metadata" _ Hty) as [metadata ->].
  cbn [mbind option_bind]. unfold addNotification.
  cbn [in_type]. rewrite Henabled, Hmuted. cbn [negb fst notifications].
  change (take MAX_NOTIFICATIONS (?x :: ?l)) with (x :: take 99 l).
  eexists _, _. repeat split.
Qed.

Lemma live_notification_defaults_witness :
  let st := {| notifications := []; preferences := DEFAULT_PREFERENCES;
               desktop := [] |} in
  let browser := {| has_Notification := false; permission := default |} in
  ∃ st' added,
    handleLiveNotification browser "1-0.5" 1
      (JObj [("title", JStr "Raid detected"); ("message", JStr "m")]) st = Some st'
    ∧ notifications st' = added :: take 99 (notifications st)
    ∧ type added = JStr "info"
    ∧ priority added = JStr "medium".
Proof.
  intros st browser.
  destruct (live_notification_defaults browser "1-0.5" 1
              (JObj [("title", JStr "Raid detected"); ("message", JStr "m")]) st)
    as [_ Hadd].
  destruct (Hadd JUndefined JUndefined eq_refl eq_refl eq_refl eq_refl)
    as (st' & added & Hsome & Hlist & Htype & Hpriority & _).
  exists st', added. by repeat split.
Defined.

End Notifications.

(** ** The notification provider behind the socket *)

(** A dispatch stops at the first subscriber of the channel that
    throws. *)
Lemma dispatch_stops_at_throw throws captured message ty ch data s
    before thrower after :
  get_prop message "type" = Some ty →
  strict_eq_str ty "pong" = false →
  get_prop message "channel" = Some ch →
  truthy ch = true →
  get_prop message "data" = Some data →
  channel_targets captured ch = before ++ thrower :: after →
  some_throw throws (with_arg data before) = false →
  throws (callback thrower) data = true →
  onmessage throws captured (Some message) s =
    print (console_error "Failed to parse WebSocket message:")
      (set_calls (calls s ++ with_arg data (before ++ [thrower])) s).
Proof.
  intros Hty Hpong Hch Htruthy Hdata Hsplit Hquiet Hthrower.
  rewrite (onmessage_dispatch _ _ _ _ _ Hty Hpong). cbv zeta.
  unfold targets. rewrite Hch, Hdata, Htruthy, Hsplit.
  unfold with_arg in *. rewrite !map_app in *. cbn [map].
  rewrite !until_throw_app, !some_throw_app, Hquiet.
  cbn [until_throw some_throw existsb fst snd orb]. rewrite Hthrower.
  cbn [orb]. by rewrite ?app_nil_r.
Qed.

(** X24: the callback the notification provider registers is
    [handleLiveNotification], which throws on [undefined].  So a message
    on the notifications topic that has no [data] makes it throw: the
    subscribers of the topic registered before it have been called, it
    has been called, those registered after it and the [system]
    callbacks are not called for this message, and the socket handler
    logs the failure as a parse failure. *)
Theorem notification_without_data_stops_dispatch throws browser new_id now st
    listener captured message ty s before after :
  (∀ arg, throws listener arg = true ↔
          NotificationContext.handleLiveNotification browser new_id now arg st
          = None) →
  get_prop message "type" = Some ty →
  strict_eq_str ty "pong" = false →
  get_prop message "channel" = Some (JStr "notifications") →
  get_prop message "data" = Some JUndefined →
  filter (λ sub, channel sub = notifications) captured
  = before ++ {| channel := notifications; callback := listener |} :: after →
  (∀ sub, sub ∈ before → throws (callback sub) JUndefined = false) →
  onmessage throws captured (Some message) s =
    print (console_error "Failed to parse WebSocket message:")
      (set_calls
         (calls s
          ++ with_arg JUndefined
               (before ++ [ {| channel := notifications; callback := listener |} ]))
         s).
Proof.
  intros Hlistener Hty Hpong Hch Hdata Hsplit Hbefore.
  apply (dispatch_stops_at_throw throws captured message ty
           (JStr "notifications") JUndefined s before _ after); try done.
  - change (JStr "notifications") with (JStr (channel_name notifications)).
    by rewrite (channel_targets_by_name captured notifications).
  - apply quiet_targets, Forall_forall. intros sub Hsub. by apply Hbefore.
  - simpl. apply Hlistener. by apply handleLiveNotification_throws.
Qed.

Lemma notification_without_data_stops_dispatch_witness :
  let throws := λ (cb : Callback) (arg : JsValue), bool_decide (cb = 5) && nullish arg in
  let captured := [ {| channel := notifications; callback := 5 |};
                    {| channel := notifications; callback := 6 |};
                    {| channel := system; callback := 9 |} ] in
  let message := JObj [("type", JStr "notification");
                       ("channel", JStr "notifications")] in
  calls (onmessage throws captured (Some message) initial) = [(5, JUndefined)].
Proof.
  intros throws captured message.
  rewrite (notification_without_data_stops_dispatch throws
             {| NotificationContext.has_Notification := false;
                NotificationContext.permission := NotificationContext.default |}
             "1-0.5" 1
             {| NotificationContext.notifications := [];
                NotificationContext.preferences :=
                  NotificationContext.DEFAULT_PREFERENCES;
                NotificationContext.desktop := [] |}
             5 captured message (JStr "notification") initial []
             [ {| channel := notifications; callback := 6 |} ]);
    try reflexivity.
  - intros arg. rewrite handleLiveNotification_throws. by destruct arg.
  - intros sub Hsub. by apply elem_of_nil in Hsub.
Defined.

(** * Sessions that only auto-connect *)

Section AutoConnect.

Variable props : Props.
Variable throws : Callback → JsValue → bool.

Lemma dispatched_nothing_captured parsed : dispatched throws [] parsed = [].
Proof.
  unfold dispatched, targets. destruct parsed as [message|]; [|done]. simpl.
  destruct (get_prop message "type") as [ty|]; [|done]. simpl.
  destruct (strict_eq_str ty "pong"); [done|].
  destruct (get_prop message "channel") as [ch|]; [|done].
  destruct (get_prop message "data") as [data|]; [|done].
  by destruct (truthy ch).
Qed.

Lemma socket_send_closures i v s j k :
  sockets (socket_send i v s) !! j = Some k →
  ∃ k', sockets s !! j = Some k'
        ∧ closure_subscriptions k = closure_subscriptions k'.
Proof.
  unfold socket_send. repeat case_match; simpl; eauto.
  intros [[<- <-]|[? ?]]%lookup_insert_Some; eauto.
Qed.

Lemma socket_close_closures i s j k :
  sockets (socket_close i s) !! j = Some k →
  ∃ k', sockets s !! j = Some k'
        ∧ closure_subscriptions k = closure_subscriptions k'.
Proof.
  unfold socket_close. repeat case_match; simpl; eauto.
  all: intros [[<- <-]|[? ?]]%lookup_insert_Some; eauto.
Qed.

Ltac deaf_cases :=
  unfold deaf; simpl; repeat split; try done;
  intros ? ? ?Hentry; simpl in *;
  repeat match goal with
    | H : <[_:=_]> _ !! _ = Some _ |- _ =>
        apply lookup_insert_Some in H as [[<- <-]|[? H]]
    | H : delete _ _ !! _ = Some _ |- _ =>
        apply lookup_delete_Some in H as [? H]
    end; simpl; eauto.

Lemma deaf_step s e :
  keeps_first_connect e = true →
  deaf s → deaf (step props throws s e).
Proof.
  intros He (Hcalls & Hsockets & Htimers).
  destruct e; try discriminate He; simpl.
  - (* mount *)
    unfold_provider. repeat case_match; deaf_cases.
  - unfold_provider. repeat case_match; deaf_cases.
  - unfold_provider. repeat case_match; deaf_cases.
  - unfold_provider. repeat case_match; deaf_cases.
  - unfold_provider. repeat case_match; deaf_cases.
  - unfold_provider. repeat case_match; deaf_cases.
  - unfold_provider. repeat case_match; deaf_cases.
  - (* open *)
    unfold socket_opens. destruct (sockets s !! socket) as [k|] eqn:Hk; [|done].
    destruct (readyState k); try done.
    rewrite (Hsockets _ _ Hk). unfold onopen, setInterval, set_readyState. simpl.
    repeat case_match; deaf_cases.
  - (* message *)
    pose proof (socket_message_only_observations throws socket parsed s) as Hsame.
    repeat split.
    + rewrite socket_message_calls, Hcalls. unfold emitted.
      destruct (sockets s !! socket) as [k|] eqn:Hk; [|done].
      destruct (readyState k); try done.
      rewrite (Hsockets _ _ Hk). apply dispatched_nothing_captured.
    + intros j kj.
      replace (sockets (socket_message throws socket parsed s)) with (sockets s)
        by exact (f_equal sockets (eq_sym Hsame)).
      apply Hsockets.
    + intros h tm.
      replace (timers (socket_message throws socket parsed s)) with (timers s)
        by exact (f_equal timers (eq_sym Hsame)).
      apply Htimers.
  - unfold_provider. repeat case_match; deaf_cases.
  - (* close *)
    unfold socket_closes. destruct (sockets s !! socket) as [k|] eqn:Hk; [|done].
    pose proof (Hsockets _ _ Hk) as Hnone.
    destruct (readyState k); try done; rewrite Hnone;
      unfold_provider; repeat case_match; deaf_cases.
  - (* timer *)
    unfold timer_fires. destruct (timers s !! handle) as [tm|] eqn:Htm; [|done].
    pose proof (Htimers _ _ Htm) as Hnone.
    destruct tm as [[i|c|c] d r]; simpl in Hnone; subst; simpl;
      unfold_provider; repeat case_match; deaf_cases.
Qed.

(** X25: the mount effect calls the [connect] of the first render, whose
    [subscriptions] is empty, and a retry calls the [connect] that made
    the socket that closed.  So as long as the application calls neither
    [connect] nor [reconnect] itself, whatever it subscribes and whatever
    the browser delivers, no handler holds a subscription and no callback
    is ever called. *)
Theorem autoconnected_session_calls_nobody events :
  forallb keeps_first_connect events = true →
  let s := run props throws events initial in
  calls s = []
  ∧ ∀ i k, sockets s !! i = Some k → closure_subscriptions k = [].
Proof.
  intros Hevents. simpl.
  enough (deaf (run props throws events initial)) as (? & ? & ?) by done.
  induction events as [|e rest IH] using rev_ind.
  - repeat split; simpl; intros ? ?; by rewrite lookup_empty.
  - rewrite forallb_app in Hevents. simpl in Hevents.
    apply andb_prop in Hevents as [Hrest He].
    rewrite andb_true_r in He.
    rewrite run_snoc. by apply deaf_step, IH.
Qed.

End AutoConnect.

Lemma autoconnected_session_calls_nobody_witness :
  calls (run default_props never_throws
           [call_subscribe transactions 7; mount; open_event 0;
            call_subscribe prices 8;
            message_event 0 (Some (frame "tx" "transactions" (JNum 1)));
            close_event 0; timer_event 2; open_event 1;
            message_event 1 (Some (frame "tx" "transactions" (JNum 2)))]
           initial) = [].
Proof.
  apply (autoconnected_session_calls_nobody default_props never_throws).
  reflexivity.
Defined.

(** ** After [disconnect] *)

(** X26: [disconnect()] ends a session that has one transport.  When
    every pending timer is held by one of the two timer refs and every
    socket that is connecting or open is the one in [socketRef], then
    after [disconnect()], whatever the browser still delivers (open,
    message, error and close events, timers), no timer is pending, no
    socket is connecting or open, no frame is sent and no socket is
    made. *)
Theorem disconnect_ends_single_transport props throws events s :
  single_transport s →
  forallb from_browser events = true →
  let s' := run props throws events (disconnect s) in
  silent s'
  ∧ sent <$> sockets s' = sent <$> sockets s
  ∧ next_socket s' = next_socket s.
Proof. apply single_transport_stays_silent. Qed.

Lemma disconnect_ends_single_transport_witness :
  let s := run default_props never_throws [mount; open_event 0] initial in
  let s' := run default_props never_throws
              [timer_event 1; message_event 0 None; close_event 0; timer_event 1]
              (disconnect s) in
  timers s' = ∅ ∧ next_socket s' = 1.
Proof.
  intros s s'.
  destruct (disconnect_ends_single_transport default_props never_throws
              [timer_event 1; message_event 0 None; close_event 0; timer_event 1] s)
    as ((_ & Htimers & _) & _ & Hnext).
  - split.
    + intros h Hh. left.
      destruct (decide (h = 1%nat)) as [->|Hne]; [reflexivity|].
      replace (timers s)
        with (<[1%nat := {| task := heartbeat_tick 0; delay := 30000;
                            repeats := true |}]> (∅ : gmap nat Timer))
        in Hh by (vm_compute; reflexivity).
      rewrite lookup_insert_ne, lookup_empty in Hh by done.
      by destruct Hh.
    + intros i k Hk. left.
      destruct (decide (i = 0%nat)) as [->|Hne]; [reflexivity|].
      replace (sockets s)
        with (<[0%nat := {| readyState := OPEN; closure_subscriptions := [];
                            sent := [] |}]> (∅ : gmap nat Socket))
        in Hk by (vm_compute; reflexivity).
      rewrite lookup_insert_ne, lookup_empty in Hk by done.
      done.
  - reflexivity.
  - split; [exact Htimers | exact Hnext].
Defined.
